(** * CUDA adapter memory objects: [ur_mem_handle_t_] and [ur_buffer_]

    A shallow embedding of
    [sycl/plugins/unified_runtime/ur/adapters/cuda/memory.hpp].

    The member functions of [ur_buffer_] become computations in a small
    state-and-failure monad.  The state is the object the member function
    runs on ([this]) together with the log of every call it makes into a
    collaborator: the handle retain/release entry points, the C allocator
    and the CUDA driver.  A failed [assert], or an index outside a
    [std::vector], ends the computation with [None]. *)

From Stdlib Require Import ZArith Lia List.
From stdpp Require Import base tactics decidable option numbers list.

(** ** Machine words and handles *)

(** [void *], [CUdeviceptr] and the opaque handles are 64-bit addresses;
    [size_t] is a 64-bit unsigned integer. *)
Abbreviation ptr := Z (only parsing).
Abbreviation size_t := Z (only parsing).

Definition nullptr : ptr := 0%Z.

Definition ptr_modulus : Z := (2 ^ 64)%Z.

(** [static_cast<char *>(P) + Off]: address arithmetic, modulo the width of
    an address. *)
Definition ptr_add (P : ptr) (Off : size_t) : ptr := ((P + Off) mod ptr_modulus)%Z.

(** [uint32_t] arithmetic of [std::atomic_uint32_t]. *)
Definition uint32_modulus : Z := (2 ^ 32)%Z.
Definition uint32_wrap (x : Z) : Z := (x mod uint32_modulus)%Z.

(** Result codes.  [ur_api.h] and [cuda.h] are outside the excerpt; both
    enumerations are kept as their integer codes and only the success code
    of each, which is 0, is named. *)
Abbreviation ur_result_t := Z (only parsing).
Abbreviation CUresult := Z (only parsing).
Definition UR_RESULT_SUCCESS : ur_result_t := 0%Z.
Definition CUDA_SUCCESS : CUresult := 0%Z.

(** [ur_map_flags_t] is a bit field ([ur_api.h]: READ is bit 0, WRITE is
    bit 1, WRITE_INVALIDATE_REGION is bit 2). *)
Abbreviation ur_map_flags_t := Z (only parsing).
Definition UR_MAP_FLAG_READ : ur_map_flags_t := 1%Z.
Definition UR_MAP_FLAG_WRITE : ur_map_flags_t := 2%Z.

(** The part of [ur_context_handle_t_] the buffer reads: the number of
    devices in the context.  Device indices and [NumDevices] are [uint32_t];
    the loops below count from 0 up to [NumDevices], so they never wrap and
    are kept as [nat]. *)
Record ur_context_handle_t_ := { NumDevices : nat }.

(** ** The base class [ur_mem_handle_t_] *)

Record ur_mem_handle_t_ := {
  Context : ur_context_handle_t_;
  DeviceWithNativeAllocation : ptr;
  RefCount : Z;
  MemFlags : Z
}.

Definition set_RefCount (v : Z) (m : ur_mem_handle_t_) : ur_mem_handle_t_ :=
  {| Context := Context m;
     DeviceWithNativeAllocation := DeviceWithNativeAllocation m;
     RefCount := v;
     MemFlags := MemFlags m |}.

(** [uint32_t incrementReferenceCount() noexcept { return ++RefCount; }] *)
Definition incrementReferenceCount (m : ur_mem_handle_t_) : Z * ur_mem_handle_t_ :=
  let c := uint32_wrap (RefCount m + 1) in (c, set_RefCount c m).

(** [uint32_t decrementReferenceCount() noexcept { return --RefCount; }] *)
Definition decrementReferenceCount (m : ur_mem_handle_t_) : Z * ur_mem_handle_t_ :=
  let c := uint32_wrap (RefCount m - 1) in (c, set_RefCount c m).

(** [uint32_t getReferenceCount() const noexcept { return RefCount; }] *)
Definition getReferenceCount (m : ur_mem_handle_t_) : Z := RefCount m.

(** ** Calls into collaborators *)

Inductive event : Type :=
  | EvContextRetain
  | EvDeviceRetain (Device : ptr)
  | EvMemRetain (Mem : ptr)
  | EvMemRelease (Mem : ptr)
  | EvEventRetain (Event : ptr)
  | EvEventRelease (Event : ptr)
  | EvMalloc (Bytes : size_t) (Ret : ptr)
  | EvFree (P : ptr)
  | EvScopedDevice (Index : nat)
  | EvCuMemFree (DevPtr : ptr) (Ret : CUresult)
  | EvCuMemHostUnregister (P : ptr) (Ret : CUresult)
  | EvCuMemFreeHost (P : ptr) (Ret : CUresult).

#[global] Instance event_eq_dec : EqDecision event.
Proof. solve_decision. Defined.

(** The two constructors of the base class: each stores its arguments, starts
    the reference count at 1 and retains the context; the second one also
    retains the device that holds the native allocation. *)
Definition new_ur_mem_handle_t_ (Ctx : ur_context_handle_t_) (Flags : Z)
    (log : list event) : ur_mem_handle_t_ * list event :=
  ({| Context := Ctx; DeviceWithNativeAllocation := nullptr;
      RefCount := 1; MemFlags := Flags |},
   log ++ [EvContextRetain]).

Definition new_ur_mem_handle_t_native (Ctx : ur_context_handle_t_) (Device : ptr)
    (Flags : Z) (log : list event) : ur_mem_handle_t_ * list event :=
  ({| Context := Ctx; DeviceWithNativeAllocation := Device;
      RefCount := 1; MemFlags := Flags |},
   log ++ [EvContextRetain; EvDeviceRetain Device]).

(** ** The class [ur_buffer_] *)

Inductive AllocMode : Type := Classic | UseHostPtr | CopyIn | AllocHostPtr.

#[global] Instance AllocMode_eq_dec : EqDecision AllocMode.
Proof. solve_decision. Defined.

(** The struct's fields in declaration order.  [SubBuffer.Origin] is left
    out: no constructor initialises it and no member function of this header
    reads or writes it. *)
Record ur_buffer_ := {
  base : ur_mem_handle_t_;
  Parent : ptr;
  Ptrs : list ptr;
  HaveMigratedToDeviceSinceLastWrite : list bool;
  HostPtr : ptr;
  Size : size_t;
  MapSize : size_t;
  MapOffset : size_t;
  MapPtr : ptr;
  MapFlags : ur_map_flags_t;
  LastEventWritingToMemObj : ptr;
  MemAllocMode : AllocMode
}.

Definition set_MapSize (v : size_t) (b : ur_buffer_) : ur_buffer_ :=
  {| base := base b; Parent := Parent b; Ptrs := Ptrs b;
     HaveMigratedToDeviceSinceLastWrite := HaveMigratedToDeviceSinceLastWrite b;
     HostPtr := HostPtr b; Size := Size b; MapSize := v;
     MapOffset := MapOffset b; MapPtr := MapPtr b; MapFlags := MapFlags b;
     LastEventWritingToMemObj := LastEventWritingToMemObj b;
     MemAllocMode := MemAllocMode b |}.

Definition set_MapOffset (v : size_t) (b : ur_buffer_) : ur_buffer_ :=
  {| base := base b; Parent := Parent b; Ptrs := Ptrs b;
     HaveMigratedToDeviceSinceLastWrite := HaveMigratedToDeviceSinceLastWrite b;
     HostPtr := HostPtr b; Size := Size b; MapSize := MapSize b;
     MapOffset := v; MapPtr := MapPtr b; MapFlags := MapFlags b;
     LastEventWritingToMemObj := LastEventWritingToMemObj b;
     MemAllocMode := MemAllocMode b |}.

Definition set_MapPtr (v : ptr) (b : ur_buffer_) : ur_buffer_ :=
  {| base := base b; Parent := Parent b; Ptrs := Ptrs b;
     HaveMigratedToDeviceSinceLastWrite := HaveMigratedToDeviceSinceLastWrite b;
     HostPtr := HostPtr b; Size := Size b; MapSize := MapSize b;
     MapOffset := MapOffset b; MapPtr := v; MapFlags := MapFlags b;
     LastEventWritingToMemObj := LastEventWritingToMemObj b;
     MemAllocMode := MemAllocMode b |}.

Definition set_MapFlags (v : ur_map_flags_t) (b : ur_buffer_) : ur_buffer_ :=
  {| base := base b; Parent := Parent b; Ptrs := Ptrs b;
     HaveMigratedToDeviceSinceLastWrite := HaveMigratedToDeviceSinceLastWrite b;
     HostPtr := HostPtr b; Size := Size b; MapSize := MapSize b;
     MapOffset := MapOffset b; MapPtr := MapPtr b; MapFlags := v;
     LastEventWritingToMemObj := LastEventWritingToMemObj b;
     MemAllocMode := MemAllocMode b |}.

Definition set_LastEventWritingToMemObj (v : ptr) (b : ur_buffer_) : ur_buffer_ :=
  {| base := base b; Parent := Parent b; Ptrs := Ptrs b;
     HaveMigratedToDeviceSinceLastWrite := HaveMigratedToDeviceSinceLastWrite b;
     HostPtr := HostPtr b; Size := Size b; MapSize := MapSize b;
     MapOffset := MapOffset b; MapPtr := MapPtr b; MapFlags := MapFlags b;
     LastEventWritingToMemObj := v;
     MemAllocMode := MemAllocMode b |}.

Definition set_HaveMigrated (v : list bool) (b : ur_buffer_) : ur_buffer_ :=
  {| base := base b; Parent := Parent b; Ptrs := Ptrs b;
     HaveMigratedToDeviceSinceLastWrite := v;
     HostPtr := HostPtr b; Size := Size b; MapSize := MapSize b;
     MapOffset := MapOffset b; MapPtr := MapPtr b; MapFlags := MapFlags b;
     LastEventWritingToMemObj := LastEventWritingToMemObj b;
     MemAllocMode := MemAllocMode b |}.

Definition set_MemAllocMode (v : AllocMode) (b : ur_buffer_) : ur_buffer_ :=
  {| base := base b; Parent := Parent b; Ptrs := Ptrs b;
     HaveMigratedToDeviceSinceLastWrite := HaveMigratedToDeviceSinceLastWrite b;
     HostPtr := HostPtr b; Size := Size b; MapSize := MapSize b;
     MapOffset := MapOffset b; MapPtr := MapPtr b; MapFlags := MapFlags b;
     LastEventWritingToMemObj := LastEventWritingToMemObj b;
     MemAllocMode := v |}.

(** ** The monad of member functions *)

Record state := { this : ur_buffer_; log : list event }.

Definition M (A : Type) : Type := state -> option (A * state).

#[global] Instance M_ret : MRet M := fun A x s => Some (x, s).
#[global] Instance M_bind : MBind M := fun A B f c s =>
  match c s with
  | Some (x, s') => f x s'
  | None => None
  end.

(** [assert(c)] *)
Definition assert (c : bool) : M unit :=
  fun s => if c then Some (tt, s) else None.

(** Read a field of [this]. *)
Definition field {A : Type} (f : ur_buffer_ -> A) : M A :=
  fun s => Some (f (this s), s).

(** Assign a field of [this]. *)
Definition assign (upd : ur_buffer_ -> ur_buffer_) : M unit :=
  fun s => Some (tt, {| this := upd (this s); log := log s |}).

(** Record a call that returns nothing. *)
Definition emit (e : event) : M unit :=
  fun s => Some (tt, {| this := this s; log := log s ++ [e] |}).

(** Call a collaborator whose answer may depend on everything that was
    called before, and record the call together with its answer. *)
Definition call {A : Type} (oracle : list event -> A) (ev : A -> event) : M A :=
  fun s => let r := oracle (log s) in
           Some (r, {| this := this s; log := log s ++ [ev r] |}).

(** [V[i]] and [V[i] = x] on a [std::vector]: an index past the end is
    undefined behaviour and ends the computation. *)
Definition vec_get {A : Type} (i : nat) (v : list A) : M A :=
  fun s => match v !! i with Some x => Some (x, s) | None => None end.

Definition vec_set {A : Type} (i : nat) (x : A) (v : list A) : M (list A) :=
  fun s => if decide (i < length v) then Some (<[i:=x]> v, s) else None.

(** [for (auto i = 0u; i < n; ++i) body(i)] *)
Fixpoint for_loop (i n : nat) (body : nat -> M unit) : M unit :=
  match n with
  | O => mret tt
  | S n' => body i ;; for_loop (S i) n' body
  end.

Section Adapter.

(** The collaborators.  The C allocator and the CUDA driver answer a call
    from its argument and from the history of calls so far; the event
    object tells the index of the device it belongs to. *)
Variable malloc : list event -> size_t -> ptr.
Variable cuMemFree : list event -> ptr -> CUresult.
Variable cuMemHostUnregister : list event -> ptr -> CUresult.
Variable cuMemFreeHost : list event -> ptr -> CUresult.

(** [NewEvent->getDevice()->getIndex()] ([event.hpp], [device.hpp]). *)
Variable getDeviceIndex : ptr -> nat.

(** Modelled from the spec: the macro [UR_CHECK_ERROR] of [common.hpp],
    which is outside the excerpt.  The spec has the result of each driver
    free recorded without stopping the remaining frees, so the macro is a
    function from the driver's status to the adapter's result code. *)
Variable UR_CHECK_ERROR : CUresult -> ur_result_t.

(** [bool isSubBuffer() const noexcept { return Parent != nullptr; }] *)
Definition isSubBuffer (b : ur_buffer_) : bool :=
  bool_decide (Parent b ≠ nullptr).

Definition isBuffer (b : ur_buffer_) : bool := true.
Definition isImage (b : ur_buffer_) : bool := false.
Definition getPtrs (b : ur_buffer_) : list ptr := Ptrs b.
Definition getSize (b : ur_buffer_) : size_t := Size b.
Definition getMapPtr (b : ur_buffer_) : ptr := MapPtr b.
Definition getMapSize (b : ur_buffer_) : size_t := MapSize b.
Definition getMapOffset (b : ur_buffer_) : size_t := MapOffset b.
Definition getContext (b : ur_buffer_) : ur_context_handle_t_ := Context (base b).

(** The member initialisers shared by the two constructors. *)
Definition init_ur_buffer_ (m : ur_mem_handle_t_) (Ctx : ur_context_handle_t_)
    (Parent0 : ptr) (Mode : AllocMode) (HostPtr0 : ptr) (Size0 : size_t)
    : ur_buffer_ :=
  {| base := m; Parent := Parent0;
     Ptrs := replicate (NumDevices Ctx) 0%Z;
     HaveMigratedToDeviceSinceLastWrite := replicate (NumDevices Ctx) false;
     HostPtr := HostPtr0; Size := Size0;
     MapSize := 0; MapOffset := 0; MapPtr := nullptr;
     MapFlags := UR_MAP_FLAG_WRITE;
     LastEventWritingToMemObj := nullptr;
     MemAllocMode := Mode |}.

(** The constructor body: [if (isSubBuffer()) urMemRetain(Parent);] *)
Definition ctor_body (b : ur_buffer_) (l : list event) : state :=
  {| this := b;
     log := if isSubBuffer b then l ++ [EvMemRetain (Parent b)] else l |}.

(** [ur_buffer_(Context, Parent, MemFlags, Mode, HostPtr, Size)] *)
Definition new_ur_buffer_ (Ctx : ur_context_handle_t_) (Parent0 : ptr)
    (Flags : Z) (Mode : AllocMode) (HostPtr0 : ptr) (Size0 : size_t)
    (l : list event) : state :=
  let '(m, l1) := new_ur_mem_handle_t_ Ctx Flags l in
  ctor_body (init_ur_buffer_ m Ctx Parent0 Mode HostPtr0 Size0) l1.

(** [ur_buffer_(Context, Device, Parent, MemFlags, Mode, HostPtr, Size)] *)
Definition new_ur_buffer_native (Ctx : ur_context_handle_t_) (Device : ptr)
    (Parent0 : ptr) (Flags : Z) (Mode : AllocMode) (HostPtr0 : ptr)
    (Size0 : size_t) (l : list event) : state :=
  let '(m, l1) := new_ur_mem_handle_t_native Ctx Device Flags l in
  ctor_body (init_ur_buffer_ m Ctx Parent0 Mode HostPtr0 Size0) l1.

(** The body of [~ur_buffer_()].  The destructor of the base class, which
    is defined outside this header, runs after it. *)
Definition destroy_ur_buffer_ : M unit :=
  b ← field id;
  (if isSubBuffer b then emit (EvMemRelease (Parent b)) else mret tt) ;;
  if bool_decide (LastEventWritingToMemObj b ≠ nullptr)
  then emit (EvEventRelease (LastEventWritingToMemObj b))
  else mret tt.

(** [void *mapToPtr(size_t Size, size_t Offset, ur_map_flags_t Flags)] *)
Definition mapToPtr (Size0 Offset : size_t) (Flags : ur_map_flags_t) : M ptr :=
  p ← field MapPtr;
  assert (bool_decide (p = nullptr)) ;;
  assign (set_MapSize Size0) ;;
  assign (set_MapOffset Offset) ;;
  assign (set_MapFlags Flags) ;;
  h ← field HostPtr;
  (if bool_decide (h ≠ nullptr)
   then assign (set_MapPtr (ptr_add h Offset))
   else sz ← field getSize;
        q ← call (fun l => malloc l sz) (EvMalloc sz);
        assign (set_MapPtr q)) ;;
  field MapPtr.

(** [void unmap(void* )].  The call of [free] is recorded with the pointer
    it is given.  Whether that pointer is one [malloc] handed out is read off
    the log; what the allocator does with any other pointer is not part of
    the model. *)
Definition unmap (_ : ptr) : M unit :=
  p ← field MapPtr;
  assert (bool_decide (p ≠ nullptr)) ;;
  h ← field HostPtr;
  (if bool_decide (p ≠ h) then emit (EvFree p) else mret tt) ;;
  assign (set_MapSize 0) ;;
  assign (set_MapPtr nullptr) ;;
  assign (set_MapOffset 0).

(** [ur_map_flags_t getMapFlags() const] *)
Definition getMapFlags : M ur_map_flags_t :=
  p ← field MapPtr;
  assert (bool_decide (p ≠ nullptr)) ;;
  field MapFlags.

(** One turn of the loop of [clear()] over the device slots.  [Result] is a
    local variable of [clear], threaded through the loop. *)
Definition clear_slot (Result : ur_result_t) (i : nat) : M ur_result_t :=
  v ← field getPtrs;
  p ← vec_get i v;
  if bool_decide (p ≠ 0%Z)
  then emit (EvScopedDevice i) ;;
       r ← call (fun l => cuMemFree l p) (EvCuMemFree p);
       mret (UR_CHECK_ERROR r)
  else mret Result.

Fixpoint clear_loop (Result : ur_result_t) (i n : nat) : M ur_result_t :=
  match n with
  | O => mret Result
  | S n' => Result' ← clear_slot Result i; clear_loop Result' (S i) n'
  end.

(** [ur_result_t clear() override] *)
Definition clear : M ur_result_t :=
  b ← field id;
  if isSubBuffer b then mret UR_RESULT_SUCCESS
  else
    let Result := UR_RESULT_SUCCESS in
    match MemAllocMode b with
    | CopyIn | Classic => clear_loop Result 0 (NumDevices (getContext b))
    | UseHostPtr =>
        r ← call (fun l => cuMemHostUnregister l (HostPtr b))
                 (EvCuMemHostUnregister (HostPtr b));
        mret (UR_CHECK_ERROR r)
    | AllocHostPtr =>
        r ← call (fun l => cuMemFreeHost l (HostPtr b))
                 (EvCuMemFreeHost (HostPtr b));
        mret (UR_CHECK_ERROR r)
    end.

(** One turn of the flag loop of [setLastEventWritingToMemObj]. *)
Definition set_flag (idx i : nat) : M unit :=
  v ← field HaveMigratedToDeviceSinceLastWrite;
  v' ← vec_set i (if bool_decide (i = idx) then true else false) v;
  assign (set_HaveMigrated v').

(** [void setLastEventWritingToMemObj(ur_event_handle_t NewEvent)] *)
Definition setLastEventWritingToMemObj (NewEvent : ptr) : M unit :=
  assert (bool_decide (NewEvent ≠ nullptr)) ;;
  old ← field LastEventWritingToMemObj;
  (if bool_decide (old ≠ nullptr) then emit (EvEventRelease old) else mret tt) ;;
  emit (EvEventRetain NewEvent) ;;
  assign (set_LastEventWritingToMemObj NewEvent) ;;
  n ← field (fun b => NumDevices (Context (base b)));
  for_loop 0 n (set_flag (getDeviceIndex NewEvent)).

End Adapter.

(** ** Derived notions used in the statements *)

(** The per-device vectors have one slot for each device of the context. *)
Definition buffer_wf (b : ur_buffer_) : Prop :=
  length (Ptrs b) = NumDevices (Context (base b)) ∧
  length (HaveMigratedToDeviceSinceLastWrite b) = NumDevices (Context (base b)).

(** How often a call occurs in a log. *)
Definition occurrences (e : event) (l : list event) : nat :=
  length (filter (λ x, x = e) l).

(** The driver frees of a log: the pointer handed to [cuMemFree] and the
    status it answered, in call order. *)
Definition frees_of (l : list event) : list (ptr * CUresult) :=
  omap (λ e, match e with EvCuMemFree p r => Some (p, r) | _ => None end) l.

(** The devices made current by a [ScopedDevice], in call order. *)
Definition devices_of (l : list event) : list nat :=
  omap (λ e, match e with EvScopedDevice i => Some i | _ => None end) l.

(** The sizes requested from [malloc] and the pointers passed to [free]. *)
Definition mallocs_of (l : list event) : list (size_t * ptr) :=
  omap (λ e, match e with EvMalloc n p => Some (n, p) | _ => None end) l.

Definition host_frees_of (l : list event) : list ptr :=
  omap (λ e, match e with EvFree p => Some p | _ => None end) l.

(** The device slots that hold an allocation, with their index. *)
Definition non_empty_slots (v : list ptr) : list (nat * ptr) :=
  filter (λ ip, ip.2 ≠ 0%Z) (imap (λ i p, (i, p)) v).

(** The spec's reporting policy for [clear()]: the last failure among the
    results of the frees, success when none failed. *)
Definition last_failure (rs : list ur_result_t) : ur_result_t :=
  default UR_RESULT_SUCCESS (last (filter (λ r, r ≠ UR_RESULT_SUCCESS) rs)).


(** What the object still holds of an event: retains minus releases. *)
Definition held (e : ptr) (l : list event) : Z :=
  (Z.of_nat (occurrences (EvEventRetain e) l)
   - Z.of_nat (occurrences (EvEventRelease e) l))%Z.

(** The single slot for the last writer accounts for every reference on an
    event that the log shows: one on the tracked event, none on any other. *)
Definition writer_tracked (s : state) : Prop :=
  ∀ e, e ≠ nullptr →
    held e (log s) = if decide (e = LastEventWritingToMemObj (this s)) then 1%Z else 0%Z.

(** The pointer [mapToPtr] hands out on an unmapped buffer: the alias into
    the host memory when there is some, the allocator's answer otherwise. *)
Definition mapped_address (malloc : list event → size_t → ptr)
    (b : ur_buffer_) (l : list event) (Offset : size_t) : ptr :=
  if bool_decide (HostPtr b ≠ nullptr) then ptr_add (HostPtr b) Offset
  else malloc l (Size b).


(** ** Sample collaborators and objects *)

Module Sample.

(** An allocator that hands out a new address on every call. *)
Definition malloc (l : list event) (n : size_t) : ptr :=
  (65536 + 4096 * Z.of_nat (length l))%Z.

(** A driver in which freeing the allocation at address 100 fails with
    status 1 and every other call succeeds. *)
Definition cuMemFree (l : list event) (p : ptr) : CUresult :=
  if bool_decide (p = 100%Z) then 1%Z else CUDA_SUCCESS.

Definition cuMemHostUnregister (l : list event) (p : ptr) : CUresult := CUDA_SUCCESS.
Definition cuMemFreeHost (l : list event) (p : ptr) : CUresult := CUDA_SUCCESS.

(** Success maps to success, any other status to result code 1. *)
Definition UR_CHECK_ERROR (r : CUresult) : ur_result_t :=
  if bool_decide (r = CUDA_SUCCESS) then UR_RESULT_SUCCESS else 1%Z.

(** Events 7 and 8 were recorded on devices 0 and 1. *)
Definition getDeviceIndex (e : ptr) : nat :=
  if bool_decide (e = 8%Z) then 1 else 0.

Definition ctx2 : ur_context_handle_t_ := {| NumDevices := 2 |}.

Definition H : ptr := 4096%Z.

(** A buffer over host memory at [H], one seeded from it, a plain device
    buffer, and a sub-buffer of the object at address 512. *)
Definition host_buffer : state := new_ur_buffer_ ctx2 nullptr 0 UseHostPtr H 1024 [].
Definition copy_in_buffer : state := new_ur_buffer_ ctx2 nullptr 0 CopyIn H 1024 [].
Definition classic_buffer : state := new_ur_buffer_ ctx2 nullptr 0 Classic nullptr 1024 [].
Definition sub_buffer : state := new_ur_buffer_ ctx2 512 0 Classic nullptr 256 [].

(** The plain device buffer once both devices hold an allocation. *)
Definition allocated_buffer : state :=
  {| this :=
       {| base := base (this classic_buffer); Parent := nullptr;
          Ptrs := [100%Z; 200%Z];
          HaveMigratedToDeviceSinceLastWrite := [false; false];
          HostPtr := nullptr; Size := 1024; MapSize := 0; MapOffset := 0;
          MapPtr := nullptr; MapFlags := UR_MAP_FLAG_WRITE;
          LastEventWritingToMemObj := nullptr; MemAllocMode := Classic |};
     log := [] |}.

(** That buffer after [clear()] went through both slots. *)
Definition cleared_buffer : state :=
  {| this := this allocated_buffer;
     log := [EvScopedDevice 0; EvCuMemFree 100 1;
             EvScopedDevice 1; EvCuMemFree 200 CUDA_SUCCESS] |}.

(** The plain device buffer while it is mapped for reading. *)
Definition mapped_buffer : state :=
  {| this := set_MapPtr 69632
               (set_MapFlags UR_MAP_FLAG_READ
                  (set_MapOffset 16 (set_MapSize 256 (this classic_buffer))));
     log := [EvContextRetain; EvMalloc 1024 69632] |}.

(** The plain device buffer after it was mapped for reading and unmapped:
    the staging allocation is gone, the flags of the mapping are not. *)
Definition unmapped_buffer : state :=
  {| this := set_MapFlags UR_MAP_FLAG_READ (this classic_buffer);
     log := [EvContextRetain; EvMalloc 1024 69632; EvFree 69632] |}.

(** A memory object whose count has been released down to 0. *)
Definition released_handle : ur_mem_handle_t_ :=
  {| Context := ctx2; DeviceWithNativeAllocation := nullptr;
     RefCount := 0; MemFlags := 0 |}.

End Sample.

(** ** The native pointer of a device *)

Section NativePtr.

(** [hDevice->getIndex()] ([device.hpp]). *)
Variable getIndex : ptr → nat.

(** [native_type &getNativePtr(ur_device_handle_t hDevice) noexcept]: the
    slot of the device.  The function returns a reference; this is the read
    through it. *)
Definition getNativePtr (hDevice : ptr) : M ptr :=
  assert (bool_decide (hDevice ≠ nullptr)) ;;
  v ← field Ptrs;
  vec_get (getIndex hDevice) v.

End NativePtr.

(** ** Sequences of calls on one object *)

(** Everything a member function of [ur_buffer_] calls into. *)
Record collaborators := {
  co_malloc : list event → size_t → ptr;
  co_cuMemFree : list event → ptr → CUresult;
  co_cuMemHostUnregister : list event → ptr → CUresult;
  co_cuMemFreeHost : list event → ptr → CUresult;
  co_getDeviceIndex : ptr → nat;
  co_getIndex : ptr → nat;
  co_UR_CHECK_ERROR : CUresult → ur_result_t
}.

(** A call of one of the member functions that a holder of the object can
    make while it lives. *)
Inductive method : Type :=
  | CallMapToPtr (Size0 Offset : size_t) (Flags : ur_map_flags_t)
  | CallUnmap (P : ptr)
  | CallGetMapFlags
  | CallGetNativePtr (hDevice : ptr)
  | CallClear
  | CallSetLastEvent (NewEvent : ptr).

Definition invoke (E : collaborators) (m : method) : M unit :=
  match m with
  | CallMapToPtr Size0 Offset Flags =>
      mapToPtr (co_malloc E) Size0 Offset Flags ;; mret tt
  | CallUnmap P => unmap P
  | CallGetMapFlags => getMapFlags ;; mret tt
  | CallGetNativePtr hDevice => getNativePtr (co_getIndex E) hDevice ;; mret tt
  | CallClear =>
      clear (co_cuMemFree E) (co_cuMemHostUnregister E) (co_cuMemFreeHost E)
        (co_UR_CHECK_ERROR E) ;; mret tt
  | CallSetLastEvent NewEvent =>
      setLastEventWritingToMemObj (co_getDeviceIndex E) NewEvent
  end.

(** The calls of a list, one after the other; the first that fails ends the
    run. *)
Fixpoint run_calls (E : collaborators) (ms : list method) : M unit :=
  match ms with
  | [] => mret tt
  | m :: ms' => invoke E m ;; run_calls E ms'
  end.

(** The staging allocations that are still owed to the allocator: the
    pointers [malloc] answered (null answers aside) are the pointers given
    back through [free], followed by the pointer of the active mapping. *)
Definition staging_accounted (s : state) : Prop :=
  host_frees_of (log s)
  ++ (if bool_decide (MapPtr (this s) ≠ nullptr) then [MapPtr (this s)] else [])
  = filter (λ p, p ≠ nullptr) (mallocs_of (log s)).*2.

(** [k] retains, [k] releases. *)
Definition retain_n (k : nat) (m : ur_mem_handle_t_) : ur_mem_handle_t_ :=
  Nat.iter k (λ m', (incrementReferenceCount m').2) m.

Definition release_n (k : nat) (m : ur_mem_handle_t_) : ur_mem_handle_t_ :=
  Nat.iter k (λ m', (decrementReferenceCount m').2) m.

(** ** The class [ur_image_] *)

Inductive image_Type : Type := Surface | Texture.

(** The union [MemImpl].  The value records which member the constructor
    wrote.  Both members start with the array, followed by a 64-bit handle
    ([SurfObj], or [Handle] holding the surface or texture object cast to a
    pointer) and the image type: read through [SurfaceMem], an [ImageMem]
    shows its array and the bits of its handle. *)
Inductive MemImpl : Type :=
  | SurfaceMem (Array : ptr) (SurfObj : Z) (ImageType : Z)
  | ImageMem (Array : ptr) (Handle : ptr) (ImageType : Z) (Sampler : ptr).

(** [Mem.SurfaceMem.getArray()] and [Mem.SurfaceMem.getSurface()] *)
Definition SurfaceMem_getArray (m : MemImpl) : ptr :=
  match m with
  | SurfaceMem Array _ _ => Array
  | ImageMem Array _ _ _ => Array
  end.

Definition SurfaceMem_getSurface (m : MemImpl) : Z :=
  match m with
  | SurfaceMem _ SurfObj _ => SurfObj
  | ImageMem _ Handle _ _ => Handle
  end.

Record ur_image_ := {
  image_base : ur_mem_handle_t_;
  MemType : image_Type;
  Mem : MemImpl
}.

(** The calls of an image: those it shares with buffers and the two destroy
    entry points of the driver, with the status each answered. *)
Inductive image_event : Type :=
  | ImShared (e : event)
  | ImCuSurfObjectDestroy (SurfObj : Z) (Ret : CUresult)
  | ImCuArrayDestroy (Array : ptr) (Ret : CUresult).

(** [ur_image_(Context, Array, Surf, MemFlags, ImageType, HostPtr)] *)
Definition new_ur_image_surface (Ctx : ur_context_handle_t_) (Array : ptr)
    (Surf : Z) (Flags : Z) (ImageType : Z) (HostPtr0 : ptr)
    (l : list image_event) : ur_image_ * list image_event :=
  let '(m, evs) := new_ur_mem_handle_t_ Ctx Flags [] in
  ({| image_base := m; MemType := Surface;
      Mem := SurfaceMem Array Surf ImageType |},
   l ++ (ImShared <$> evs)).

(** [ur_image_(Context, Array, Surf, ImageType)], the unsampled image *)
Definition new_ur_image_unsampled (Ctx : ur_context_handle_t_) (Array : ptr)
    (Surf : Z) (ImageType : Z)
    (l : list image_event) : ur_image_ * list image_event :=
  let '(m, evs) := new_ur_mem_handle_t_ Ctx 0 [] in
  ({| image_base := m; MemType := Surface;
      Mem := ImageMem Array Surf ImageType nullptr |},
   l ++ (ImShared <$> evs)).

(** [ur_image_(Context, Array, Tex, Sampler, ImageType)], the sampled image *)
Definition new_ur_image_sampled (Ctx : ur_context_handle_t_) (Array : ptr)
    (Tex : Z) (Sampler : ptr) (ImageType : Z)
    (l : list image_event) : ur_image_ * list image_event :=
  let '(m, evs) := new_ur_mem_handle_t_ Ctx 0 [] in
  ({| image_base := m; MemType := Texture;
      Mem := ImageMem Array Tex ImageType Sampler |},
   l ++ (ImShared <$> evs)).

Section Image.

Variable cuSurfObjectDestroy : list image_event → Z → CUresult.
Variable cuArrayDestroy : list image_event → ptr → CUresult.
Variable UR_CHECK_ERROR : CUresult → ur_result_t.

Definition image_isBuffer (img : ur_image_) : bool := false.
Definition image_isImage (img : ur_image_) : bool := true.

(** [ur_result_t clear() override] of [ur_image_].  The image does not
    change; the function is given the log and returns the result with the
    longer log.  [getDevices()[0]] is an index into the context's device
    vector, outside of it when the context has no device. *)
Definition image_clear (img : ur_image_) (l : list image_event)
    : option (ur_result_t * list image_event) :=
  let Result := UR_RESULT_SUCCESS in
  if decide (0 < NumDevices (Context (image_base img))) then
    let l0 := l ++ [ImShared (EvScopedDevice 0)] in
    let '(Result1, l1) :=
      if bool_decide (SurfaceMem_getSurface (Mem img) ≠ 0%Z)
      then let r := cuSurfObjectDestroy l0 (SurfaceMem_getSurface (Mem img)) in
           (UR_CHECK_ERROR r,
            l0 ++ [ImCuSurfObjectDestroy (SurfaceMem_getSurface (Mem img)) r])
      else (Result, l0) in
    let '(Result2, l2) :=
      if bool_decide (SurfaceMem_getArray (Mem img) ≠ 0%Z)
      then let r := cuArrayDestroy l1 (SurfaceMem_getArray (Mem img)) in
           (UR_CHECK_ERROR r,
            l1 ++ [ImCuArrayDestroy (SurfaceMem_getArray (Mem img)) r])
      else (Result1, l1) in
    Some (Result2, l2)
  else None.

End Image.

(** ** More sample collaborators and objects *)

Module Scenario.

(** An allocator that is out of memory. *)
Definition no_memory (l : list event) (n : size_t) : ptr := nullptr.

(** Devices 21 and 22 have index 0 and 1. *)
Definition getIndex (d : ptr) : nat := if bool_decide (d = 22%Z) then 1 else 0.

(** The event 9 was recorded on a device of another context, with index 5. *)
Definition foreign_index (e : ptr) : nat := if bool_decide (e = 9%Z) then 5 else 0.

Definition world : collaborators :=
  {| co_malloc := Sample.malloc;
     co_cuMemFree := Sample.cuMemFree;
     co_cuMemHostUnregister := Sample.cuMemHostUnregister;
     co_cuMemFreeHost := Sample.cuMemFreeHost;
     co_getDeviceIndex := Sample.getDeviceIndex;
     co_getIndex := getIndex;
     co_UR_CHECK_ERROR := Sample.UR_CHECK_ERROR |}.

(** A plain device buffer built with an empty log. *)
Definition fresh_buffer : state :=
  new_ur_buffer_ Sample.ctx2 nullptr 0 Classic nullptr 1024 [].

(** Map, look at the flags, record a writer, unmap, map again, clear. *)
Definition calls : list method :=
  [CallMapToPtr 256 16 UR_MAP_FLAG_READ; CallGetMapFlags; CallSetLastEvent 8;
   CallUnmap 0; CallMapToPtr 64 0 UR_MAP_FLAG_WRITE; CallGetNativePtr 22;
   CallClear].

(** The state those calls end in. *)
Definition after_calls : state :=
  {| this :=
       set_HaveMigrated [false; true]
         (set_LastEventWritingToMemObj 8
            (set_MapPtr 81920
               (set_MapFlags UR_MAP_FLAG_WRITE
                  (set_MapOffset 0 (set_MapSize 64 (this fresh_buffer))))));
     log := [EvContextRetain; EvMalloc 1024 69632; EvEventRetain 8;
             EvFree 69632; EvMalloc 1024 81920] |}.

(** A buffer over host memory, and what three calls make of it. *)
Definition host_calls : list method :=
  [CallMapToPtr 256 0 UR_MAP_FLAG_READ; CallUnmap 0; CallSetLastEvent 7].

Definition host_after_calls : state :=
  {| this :=
       set_HaveMigrated [true; false]
         (set_LastEventWritingToMemObj 7
            (set_MapFlags UR_MAP_FLAG_READ (this Sample.host_buffer)));
     log := [EvContextRetain; EvEventRetain 7] |}.

(** A driver for images in which destroying the surface object 31 fails with
    status 1 and every other call succeeds. *)
Definition cuSurfObjectDestroy (l : list image_event) (s : Z) : CUresult :=
  if bool_decide (s = 31%Z) then 1%Z else CUDA_SUCCESS.

Definition cuArrayDestroy (l : list image_event) (a : ptr) : CUresult := CUDA_SUCCESS.

End Scenario.

(** ** Unfolding member functions *)

Ltac unfold_M :=
  unfold mbind, M_bind, mret, M_ret, assert, field, assign, emit, call,
         vec_get, vec_set in *.

Section Properties.

Variable malloc : list event → size_t → ptr.
Variable cuMemFree : list event → ptr → CUresult.
Variable cuMemHostUnregister : list event → ptr → CUresult.
Variable cuMemFreeHost : list event → ptr → CUresult.
Variable getDeviceIndex : ptr → nat.
Variable UR_CHECK_ERROR : CUresult → ur_result_t.

Lemma state_eta (s : state) : {| this := this s; log := log s |} = s.
Proof. by destruct s. Qed.

Lemma for_loop_S (i n : nat) (body : nat → M unit) (s : state) :
  for_loop i (S n) body s =
  match body i s with Some (_, s') => for_loop (S i) n body s' | None => None end.
Proof. simpl. unfold mbind, M_bind. by destruct (body i s) as [[[] ?]|]. Qed.

(** ** Reference counting *)

Lemma uint32_wrap_range (x : Z) : (0 ≤ uint32_wrap x < 2 ^ 32)%Z.
Proof. unfold uint32_wrap, uint32_modulus. apply Z.mod_pos_bound. lia. Qed.

Lemma uint32_wrap_small (x : Z) : (0 ≤ x < 2 ^ 32)%Z → uint32_wrap x = x.
Proof. intros H. unfold uint32_wrap, uint32_modulus. by apply Z.mod_small. Qed.

(** C10.  The reference count starts at 1 in both base-class constructors and
    stays a 32-bit unsigned number.  On a count [c] in range, retain returns
    and stores [c + 1] (while that fits), release returns and stores [c - 1]
    when [c] is positive, and a release at 0 returns [2^32 - 1]: the count
    wraps modulo [2^32] and is never negative. *)
Theorem C10_refcount_uint32 (m : ur_mem_handle_t_) :
  (0 ≤ RefCount m < 2 ^ 32)%Z →
  (∀ Ctx Flags l, RefCount (new_ur_mem_handle_t_ Ctx Flags l).1 = 1%Z) ∧
  (∀ Ctx Dev Flags l, RefCount (new_ur_mem_handle_t_native Ctx Dev Flags l).1 = 1%Z) ∧
  (RefCount m < 2 ^ 32 - 1 → (incrementReferenceCount m).1 = RefCount m + 1)%Z ∧
  (0 < RefCount m → (decrementReferenceCount m).1 = RefCount m - 1)%Z ∧
  (RefCount m = 0 → (decrementReferenceCount m).1 = 2 ^ 32 - 1)%Z ∧
  (incrementReferenceCount m).1 = ((RefCount m + 1) mod 2 ^ 32)%Z ∧
  (decrementReferenceCount m).1 = ((RefCount m - 1) mod 2 ^ 32)%Z ∧
  getReferenceCount (incrementReferenceCount m).2 = (incrementReferenceCount m).1 ∧
  getReferenceCount (decrementReferenceCount m).2 = (decrementReferenceCount m).1 ∧
  (0 ≤ (incrementReferenceCount m).1 < 2 ^ 32)%Z ∧
  (0 ≤ (decrementReferenceCount m).1 < 2 ^ 32)%Z.
Proof.
  intros Hc. repeat split; try done; simpl.
  - intros H. apply uint32_wrap_small. lia.
  - intros H. apply uint32_wrap_small. lia.
  - intros ->. reflexivity.
  - apply uint32_wrap_range.
  - apply uint32_wrap_range.
  - apply uint32_wrap_range.
  - apply uint32_wrap_range.
Qed.

(** ** [mapToPtr] and [unmap] as equations *)

Lemma mapToPtr_eq (b : ur_buffer_) (l : list event) (Size0 Offset : size_t)
    (Flags : ur_map_flags_t) :
  MapPtr b = nullptr →
  mapToPtr malloc Size0 Offset Flags {| this := b; log := l |} =
  Some (mapped_address malloc b l Offset,
        {| this := set_MapPtr (mapped_address malloc b l Offset)
                     (set_MapFlags Flags (set_MapOffset Offset (set_MapSize Size0 b)));
           log := if bool_decide (HostPtr b ≠ nullptr) then l
                  else l ++ [EvMalloc (Size b) (malloc l (Size b))] |}).
Proof.
  intros Hp. unfold mapToPtr, mapped_address, getSize. unfold_M. simpl.
  rewrite Hp. simpl.
  destruct (bool_decide (HostPtr b ≠ nullptr)); reflexivity.
Qed.

Lemma mapToPtr_fails_when_mapped (s : state) (Size0 Offset : size_t)
    (Flags : ur_map_flags_t) :
  MapPtr (this s) ≠ nullptr → mapToPtr malloc Size0 Offset Flags s = None.
Proof.
  intros Hp. unfold mapToPtr. unfold_M. simpl.
  by rewrite bool_decide_eq_false_2.
Qed.

Lemma unmap_eq (b : ur_buffer_) (l : list event) (q : ptr) :
  MapPtr b ≠ nullptr →
  unmap q {| this := b; log := l |} =
  Some (tt, {| this := set_MapOffset 0 (set_MapPtr nullptr (set_MapSize 0 b));
               log := if bool_decide (MapPtr b ≠ HostPtr b)
                      then l ++ [EvFree (MapPtr b)] else l |}).
Proof.
  intros Hp. unfold unmap. unfold_M. simpl.
  rewrite bool_decide_eq_true_2 by done. simpl.
  destruct (bool_decide (MapPtr b ≠ HostPtr b)); reflexivity.
Qed.

Lemma unmap_fails_when_unmapped (s : state) (q : ptr) :
  MapPtr (this s) = nullptr → unmap q s = None.
Proof.
  intros Hp. unfold unmap. unfold_M. simpl. by rewrite Hp.
Qed.

Lemma ptr_add_neq (P : ptr) (Off : size_t) :
  (0 ≤ P < 2 ^ 64)%Z → (0 < Off < 2 ^ 64)%Z → ptr_add P Off ≠ P.
Proof.
  intros HP HO. unfold ptr_add, ptr_modulus.
  destruct (decide (P + Off < 2 ^ 64)%Z) as [Hlt|Hge].
  - rewrite Z.mod_small by lia. lia.
  - replace (P + Off)%Z with ((P + Off - 2 ^ 64) + 1 * 2 ^ 64)%Z by lia.
    rewrite Z.mod_add by lia. rewrite Z.mod_small by lia. lia.
Qed.


(** ** What [unmap] releases *)

(** A staging allocation that [mapToPtr] obtained is handed back to the
    allocator by [unmap]. *)
Lemma unmap_releases_staging (b : ur_buffer_) (l : list event)
    (Size0 Offset : size_t) (Flags : ur_map_flags_t) :
  MapPtr b = nullptr → HostPtr b = nullptr → malloc l (Size b) ≠ nullptr →
  ∃ s', (p ← mapToPtr malloc Size0 Offset Flags; unmap p) {| this := b; log := l |}
        = Some (tt, s') ∧
        log s' = l ++ [EvMalloc (Size b) (malloc l (Size b)); EvFree (malloc l (Size b))].
Proof.
  intros Hp Hh Hm. unfold mbind at 1, M_bind at 1.
  rewrite mapToPtr_eq by done. unfold mapped_address. rewrite Hh. simpl.
  rewrite unmap_eq by done. simpl.
  rewrite bool_decide_eq_true_2 by (by rewrite Hh).
  eexists; split; [reflexivity|]. simpl. by rewrite <- app_assoc.
Qed.

(** A mapping that aliases the host pointer at offset 0 is left alone. *)
Lemma unmap_keeps_alias_at_0 (b : ur_buffer_) (l : list event)
    (Size0 : size_t) (Flags : ur_map_flags_t) :
  MapPtr b = nullptr → (0 < HostPtr b < 2 ^ 64)%Z →
  ∃ s', (p ← mapToPtr malloc Size0 0 Flags; unmap p) {| this := b; log := l |}
        = Some (tt, s') ∧ log s' = l.
Proof.
  intros Hp Hh. unfold mbind at 1, M_bind at 1.
  assert (HostPtr b ≠ nullptr) as Hn by (unfold nullptr; lia).
  assert (ptr_add (HostPtr b) 0 = HostPtr b) as Ha.
  { unfold ptr_add, ptr_modulus. rewrite Z.add_0_r. apply Z.mod_small. lia. }
  rewrite mapToPtr_eq by done. unfold mapped_address.
  rewrite (bool_decide_eq_true_2 _ Hn). rewrite Ha.
  rewrite unmap_eq by done. simpl.
  rewrite bool_decide_eq_false_2 by (intros Hc; by apply Hc).
  by eexists.
Qed.

(** A mapping that aliases the host pointer at any other offset is passed to
    [free], although no allocator ever handed that address out. *)
Lemma unmap_frees_alias_at_offset (b : ur_buffer_) (l : list event)
    (Size0 Offset : size_t) (Flags : ur_map_flags_t) :
  MapPtr b = nullptr → (0 < HostPtr b < 2 ^ 64)%Z → (0 < Offset < 2 ^ 64)%Z →
  ptr_add (HostPtr b) Offset ≠ nullptr →
  ∃ s', (p ← mapToPtr malloc Size0 Offset Flags; unmap p) {| this := b; log := l |}
        = Some (tt, s') ∧
        log s' = l ++ [EvFree (ptr_add (HostPtr b) Offset)].
Proof.
  intros Hp Hh Ho Hnz. unfold mbind at 1, M_bind at 1.
  assert (HostPtr b ≠ nullptr) as Hn by (unfold nullptr; lia).
  rewrite mapToPtr_eq by done. unfold mapped_address.
  rewrite (bool_decide_eq_true_2 _ Hn).
  rewrite unmap_eq by done. simpl.
  rewrite bool_decide_eq_true_2 by (apply ptr_add_neq; lia).
  by eexists.
Qed.

(** C1.  The code at the failing input.  A buffer over the host memory at
    [Sample.H] is mapped at offset 16 and unmapped again: [unmap] calls
    [free] on [Sample.H + 16], an address inside the caller's host memory
    that no [malloc] returned (the log holds no [malloc] at all). *)
Theorem C1_unmap_frees_offset_alias :
  ∃ s', (p ← mapToPtr malloc 256 16 UR_MAP_FLAG_WRITE; unmap p) Sample.host_buffer
        = Some (tt, s') ∧
        HostPtr (this Sample.host_buffer) = Sample.H ∧
        host_frees_of (log s') = [(Sample.H + 16)%Z] ∧
        mallocs_of (log s') = [].
Proof. eexists. split; [reflexivity|]. by repeat split. Qed.

(** ** Where a mapping points *)


(** C9.  The choice between alias and staging allocation looks at the host
    pointer only.  With a host pointer, [mapToPtr] in any allocation mode
    ([CopyIn] included) returns [HostPtr + Offset] and calls nothing; and
    for any buffer, changing the mode tag changes neither the pointer
    returned nor the calls made nor any other field. *)
Theorem C9_alias_decision_ignores_mode (b : ur_buffer_) (l : list event)
    (Size0 Offset : size_t) (Flags : ur_map_flags_t) (Mode Mode' : AllocMode) :
  MapPtr b = nullptr →
  (HostPtr b ≠ nullptr →
   ∃ s', mapToPtr malloc Size0 Offset Flags
           {| this := set_MemAllocMode Mode b; log := l |}
         = Some (ptr_add (HostPtr b) Offset, s') ∧
         log s' = l ∧ getMapPtr (this s') = ptr_add (HostPtr b) Offset) ∧
  (∃ p s1 s2,
     mapToPtr malloc Size0 Offset Flags {| this := set_MemAllocMode Mode b; log := l |}
     = Some (p, s1) ∧
     mapToPtr malloc Size0 Offset Flags {| this := set_MemAllocMode Mode' b; log := l |}
     = Some (p, s2) ∧
     log s1 = log s2 ∧ this s2 = set_MemAllocMode Mode' (this s1)).
Proof.
  intros Hp. split.
  - intros Hn. rewrite mapToPtr_eq by done. unfold mapped_address. simpl.
    rewrite (bool_decide_eq_true_2 _ Hn). by eexists.
  - rewrite !mapToPtr_eq by done. by eexists _, _, _.
Qed.

(** ** Recording the last writer *)

Lemma set_HaveMigrated_twice (v w : list bool) (b : ur_buffer_) :
  set_HaveMigrated w (set_HaveMigrated v b) = set_HaveMigrated w b.
Proof. reflexivity. Qed.

Lemma set_HaveMigrated_same (b : ur_buffer_) :
  set_HaveMigrated (HaveMigratedToDeviceSinceLastWrite b) b = b.
Proof. by destruct b. Qed.

(** The flag loop, started at index [i] for [n] turns inside the vector. *)
Lemma set_flag_loop (idx n : nat) :
  ∀ (i : nat) (b : ur_buffer_) (l : list event),
    i + n ≤ length (HaveMigratedToDeviceSinceLastWrite b) →
    ∃ v', for_loop i n (set_flag idx) {| this := b; log := l |}
          = Some (tt, {| this := set_HaveMigrated v' b; log := l |}) ∧
          length v' = length (HaveMigratedToDeviceSinceLastWrite b) ∧
          ∀ j, v' !! j = if decide (i ≤ j < i + n)
                         then Some (bool_decide (j = idx))
                         else HaveMigratedToDeviceSinceLastWrite b !! j.
Proof.
  induction n as [|n IH]; intros i b l Hlen.
  - exists (HaveMigratedToDeviceSinceLastWrite b). simpl.
    rewrite set_HaveMigrated_same. repeat split.
    intros j. case_decide; [lia | done].
  - rewrite for_loop_S. unfold set_flag at 1. unfold_M. simpl.
    rewrite decide_True by lia.
    set (x := if bool_decide (i = idx) then true else false).
    set (v := HaveMigratedToDeviceSinceLastWrite b).
    destruct (IH (S i) (set_HaveMigrated (<[i:=x]> v) b) l) as (v' & Hrun & Hl & Hv).
    { simpl. rewrite length_insert. unfold v. lia. }
    exists v'. simpl. rewrite Hrun, set_HaveMigrated_twice. split; [done|].
    simpl in Hl, Hv. rewrite length_insert in Hl. split; [done|].
    intros j. rewrite Hv.
    destruct (decide (j = i)) as [->|Hne].
    + rewrite decide_False by lia. rewrite decide_True by lia.
      rewrite list_lookup_insert_eq by (unfold v; lia).
      subst x. by destruct (bool_decide (i = idx)).
    + rewrite list_lookup_insert_ne by done.
      repeat case_decide; (done || lia).
Qed.

(** [setLastEventWritingToMemObj] as an equation. *)
Lemma setLastEvent_eq (b : ur_buffer_) (l : list event) (NewEvent : ptr) :
  NewEvent ≠ nullptr →
  length (HaveMigratedToDeviceSinceLastWrite b) = NumDevices (Context (base b)) →
  ∃ v', setLastEventWritingToMemObj getDeviceIndex NewEvent {| this := b; log := l |}
        = Some (tt,
                {| this := set_HaveMigrated v' (set_LastEventWritingToMemObj NewEvent b);
                   log := (if bool_decide (LastEventWritingToMemObj b ≠ nullptr)
                           then l ++ [EvEventRelease (LastEventWritingToMemObj b)]
                           else l) ++ [EvEventRetain NewEvent] |}) ∧
        length v' = NumDevices (Context (base b)) ∧
        ∀ j, j < NumDevices (Context (base b)) →
             v' !! j = Some (bool_decide (j = getDeviceIndex NewEvent)).
Proof.
  intros Hne Hlen.
  destruct (set_flag_loop (getDeviceIndex NewEvent) (NumDevices (Context (base b))) 0
              (set_LastEventWritingToMemObj NewEvent b)
              ((if bool_decide (LastEventWritingToMemObj b ≠ nullptr)
                then l ++ [EvEventRelease (LastEventWritingToMemObj b)]
                else l) ++ [EvEventRetain NewEvent]))
    as (v' & Hrun & Hl & Hv).
  { simpl. lia. }
  exists v'. split; [|split].
  - unfold setLastEventWritingToMemObj. unfold_M. simpl.
    rewrite (bool_decide_eq_true_2 _ Hne). simpl.
    destruct (bool_decide (LastEventWritingToMemObj b ≠ nullptr)); simpl; apply Hrun.
  - simpl in Hl. lia.
  - intros j Hj. rewrite Hv. by rewrite decide_True by lia.
Qed.

(** C2.  On a buffer whose flag vector has one slot per device of the
    context, [setLastEventWritingToMemObj] for an event recorded on the
    device with index [Dw] of that context returns, and afterwards the flag
    at [Dw] is true and the flag at every other index below [NumDevices] is
    false; the vector keeps its length. *)
Theorem C2_writer_flags (b : ur_buffer_) (l : list event) (NewEvent : ptr) :
  buffer_wf b →
  NewEvent ≠ nullptr →
  getDeviceIndex NewEvent < NumDevices (Context (base b)) →
  ∃ s', setLastEventWritingToMemObj getDeviceIndex NewEvent {| this := b; log := l |}
        = Some (tt, s') ∧
        HaveMigratedToDeviceSinceLastWrite (this s') !! getDeviceIndex NewEvent
        = Some true ∧
        (∀ i, i < NumDevices (Context (base b)) → i ≠ getDeviceIndex NewEvent →
              HaveMigratedToDeviceSinceLastWrite (this s') !! i = Some false) ∧
        buffer_wf (this s').
Proof.
  intros [HP HF] Hne Hidx.
  destruct (setLastEvent_eq b l NewEvent Hne HF) as (v' & Hrun & Hl & Hv).
  eexists. split; [exact Hrun|]. simpl. split; [|split].
  - rewrite Hv by done. by rewrite bool_decide_eq_true_2.
  - intros i Hi Hd. rewrite Hv by done. by rewrite bool_decide_eq_false_2.
  - split; simpl; done.
Qed.

Lemma set_flag_loop_inv (idx n : nat) :
  ∀ (i : nat) (s s' : state),
    for_loop i n (set_flag idx) s = Some (tt, s') →
    ∃ v, this s' = set_HaveMigrated v (this s) ∧ log s' = log s.
Proof.
  induction n as [|n IH]; intros i s s' Hrun.
  - simpl in Hrun. unfold_M. injection Hrun as <-.
    exists (HaveMigratedToDeviceSinceLastWrite (this s)).
    by rewrite set_HaveMigrated_same.
  - rewrite for_loop_S in Hrun. unfold set_flag at 1 in Hrun. unfold_M.
    simpl in Hrun. case_decide; [|done].
    apply IH in Hrun as (v & Hv & Hl). simpl in Hv, Hl. by exists v.
Qed.

Lemma setLastEvent_inv (s s' : state) (NewEvent : ptr) :
  setLastEventWritingToMemObj getDeviceIndex NewEvent s = Some (tt, s') →
  ∃ v, this s' = set_HaveMigrated v (set_LastEventWritingToMemObj NewEvent (this s)).
Proof.
  unfold setLastEventWritingToMemObj. unfold_M. simpl.
  destruct (bool_decide (NewEvent ≠ nullptr)); [|done].
  destruct (bool_decide (LastEventWritingToMemObj (this s) ≠ nullptr)); simpl;
    intros Hrun; apply set_flag_loop_inv in Hrun as (v & Hv & _); by exists v.
Qed.

(** ** Counting retains and releases *)

Lemma occurrences_app (e : event) (l1 l2 : list event) :
  occurrences e (l1 ++ l2) = occurrences e l1 + occurrences e l2.
Proof. unfold occurrences. by rewrite filter_app, length_app. Qed.

Lemma occurrences_cons (e x : event) (l : list event) :
  occurrences e (x :: l) = (if decide (x = e) then 1 else 0) + occurrences e l.
Proof.
  unfold occurrences. rewrite filter_cons. by case_decide.
Qed.

Lemma occurrences_nil (e : event) : occurrences e [] = 0.
Proof. reflexivity. Qed.

Lemma held_app (e : ptr) (l1 l2 : list event) :
  held e (l1 ++ l2) = (held e l1 + held e l2)%Z.
Proof. unfold held. rewrite !occurrences_app. lia. Qed.

Lemma held_retain (e x : ptr) :
  held e [EvEventRetain x] = if decide (e = x) then 1%Z else 0%Z.
Proof.
  unfold held. rewrite !occurrences_cons, !occurrences_nil.
  rewrite (decide_False (P := EvEventRetain x = EvEventRelease e)) by done.
  destruct (decide (e = x)) as [->|Hne].
  - by rewrite decide_True.
  - rewrite decide_False; [done | congruence].
Qed.

Lemma held_release (e x : ptr) :
  held e [EvEventRelease x] = if decide (e = x) then (-1)%Z else 0%Z.
Proof.
  unfold held. rewrite !occurrences_cons, !occurrences_nil.
  rewrite (decide_False (P := EvEventRelease x = EvEventRetain e)) by done.
  destruct (decide (e = x)) as [->|Hne].
  - by rewrite decide_True.
  - rewrite decide_False; [done | congruence].
Qed.

Lemma held_mem_release (e m : ptr) : held e [EvMemRelease m] = 0%Z.
Proof.
  unfold held. rewrite !occurrences_cons, !occurrences_nil.
  by rewrite !decide_False by done.
Qed.

(** The body of the destructor as an equation. *)
Lemma destroy_eq (b : ur_buffer_) (l : list event) :
  destroy_ur_buffer_ {| this := b; log := l |} =
  Some (tt, {| this := b;
               log := (if isSubBuffer b then l ++ [EvMemRelease (Parent b)] else l)
                      ++ (if bool_decide (LastEventWritingToMemObj b ≠ nullptr)
                          then [EvEventRelease (LastEventWritingToMemObj b)]
                          else []) |}).
Proof.
  unfold destroy_ur_buffer_. unfold_M. simpl.
  destruct (isSubBuffer b), (bool_decide (LastEventWritingToMemObj b ≠ nullptr));
    simpl; by rewrite ?app_nil_r.
Qed.

(** C8.  The object has one slot for the last writer.  Setting a new writer
    releases the event in the slot, if there is one, then retains the new
    event, then stores it; the destructor releases the event in the slot, if
    there is one.  Hence the references the object holds on events are
    exactly one on the tracked event and none on any other
    ([writer_tracked]): this holds after construction, is kept by every
    [setLastEventWritingToMemObj], and the destructor leaves no reference on
    any event. *)
Theorem C8_single_tracked_writer (b : ur_buffer_) (l : list event) (NewEvent : ptr) :
  NewEvent ≠ nullptr →
  length (HaveMigratedToDeviceSinceLastWrite b) = NumDevices (Context (base b)) →
  (∃ s', setLastEventWritingToMemObj getDeviceIndex NewEvent {| this := b; log := l |}
         = Some (tt, s') ∧
         LastEventWritingToMemObj (this s') = NewEvent ∧
         log s' = l ++ (if bool_decide (LastEventWritingToMemObj b ≠ nullptr)
                        then [EvEventRelease (LastEventWritingToMemObj b)] else [])
                    ++ [EvEventRetain NewEvent] ∧
         (writer_tracked {| this := b; log := l |} → writer_tracked s')) ∧
  (∃ s', destroy_ur_buffer_ {| this := b; log := l |} = Some (tt, s') ∧
         host_frees_of (log s') = host_frees_of l ∧
         (LastEventWritingToMemObj b ≠ nullptr →
          ∃ l', log s' = l' ++ [EvEventRelease (LastEventWritingToMemObj b)]) ∧
         (LastEventWritingToMemObj b = nullptr →
          ∀ e, occurrences (EvEventRelease e) (log s') = occurrences (EvEventRelease e) l) ∧
         (writer_tracked {| this := b; log := l |} →
          ∀ e, e ≠ nullptr → held e (log s') = 0%Z)) ∧
  (∀ Ctx Parent0 Flags Mode HostPtr0 Size0,
     writer_tracked (new_ur_buffer_ Ctx Parent0 Flags Mode HostPtr0 Size0 [])) ∧
  (∀ Ctx Device Parent0 Flags Mode HostPtr0 Size0,
     writer_tracked (new_ur_buffer_native Ctx Device Parent0 Flags Mode HostPtr0 Size0 [])).
Proof.
  intros Hne Hlen. split; [|split; [|split]].
  - destruct (setLastEvent_eq b l NewEvent Hne Hlen) as (v' & Hrun & _ & _).
    eexists. split; [exact Hrun|]. simpl. split; [done|]. split.
    + destruct (bool_decide (LastEventWritingToMemObj b ≠ nullptr)); simpl;
        by rewrite <- ?app_assoc.
    + intros Htr e He. specialize (Htr e He). simpl in Htr |- *.
      rewrite held_app, held_retain.
      destruct (bool_decide_reflect (LastEventWritingToMemObj b ≠ nullptr)) as [Ho|Ho].
      * rewrite held_app, held_release, Htr.
        repeat case_decide; (done || lia).
      * rewrite Htr. apply dec_stable in Ho.
        rewrite decide_False by congruence. lia.
  - rewrite destroy_eq. eexists. split; [reflexivity|]. simpl.
    split; [|split; [|split]].
    + unfold host_frees_of.
      destruct (isSubBuffer b), (bool_decide (LastEventWritingToMemObj b ≠ nullptr));
        rewrite ?omap_app; simpl; by rewrite ?app_nil_r.
    + intros Ho. rewrite (bool_decide_eq_true_2 _ Ho). by eexists.
    + intros Ho e. rewrite bool_decide_eq_false_2 by (intros Hc; by apply Hc).
      rewrite app_nil_r. destruct (isSubBuffer b); [|done].
      rewrite occurrences_app, occurrences_cons, occurrences_nil.
      rewrite decide_False by done. lia.
    + intros Htr e He. specialize (Htr e He). simpl in Htr.
      rewrite held_app.
      assert (held e (if isSubBuffer b then l ++ [EvMemRelease (Parent b)] else l)
              = held e l) as ->.
      { destruct (isSubBuffer b); [|done]. rewrite held_app, held_mem_release. lia. }
      rewrite Htr.
      destruct (bool_decide_reflect (LastEventWritingToMemObj b ≠ nullptr)) as [Ho|Ho].
      * rewrite held_release. case_decide; lia.
      * apply dec_stable in Ho. rewrite decide_False by congruence. done.
  - intros. intros e He. unfold new_ur_buffer_, ctor_body. simpl.
    rewrite decide_False by done.
    destruct (isSubBuffer _); simpl; unfold held; simpl;
      rewrite ?occurrences_cons, ?occurrences_nil, ?decide_False; done.
  - intros. intros e He. unfold new_ur_buffer_native, ctor_body. simpl.
    rewrite decide_False by done.
    destruct (isSubBuffer _); simpl; unfold held; simpl;
      rewrite ?occurrences_cons, ?occurrences_nil, ?decide_False; done.
Qed.

(** ** Sub-buffers *)

(** C4.  For a buffer with a parent: [clear()] returns success and changes
    nothing and calls nothing; each constructor retains the parent exactly
    once (and retains no other memory object); the destructor returns,
    releases the parent exactly once, releases no other memory object and
    frees nothing. *)
Theorem C4_sub_buffer_ownership (b : ur_buffer_) (l : list event) :
  Parent b ≠ nullptr →
  clear cuMemFree cuMemHostUnregister cuMemFreeHost UR_CHECK_ERROR
    {| this := b; log := l |}
  = Some (UR_RESULT_SUCCESS, {| this := b; log := l |}) ∧
  (∀ Ctx Flags Mode HostPtr0 Size0 m,
     let s := new_ur_buffer_ Ctx (Parent b) Flags Mode HostPtr0 Size0 l in
     Parent (this s) = Parent b ∧
     log s = l ++ [EvContextRetain; EvMemRetain (Parent b)] ∧
     occurrences (EvMemRetain m) [EvContextRetain; EvMemRetain (Parent b)]
     = if decide (m = Parent b) then 1 else 0) ∧
  (∀ Ctx Device Flags Mode HostPtr0 Size0 m,
     let s := new_ur_buffer_native Ctx Device (Parent b) Flags Mode HostPtr0 Size0 l in
     Parent (this s) = Parent b ∧
     log s = l ++ [EvContextRetain; EvDeviceRetain Device; EvMemRetain (Parent b)] ∧
     occurrences (EvMemRetain m)
       [EvContextRetain; EvDeviceRetain Device; EvMemRetain (Parent b)]
     = if decide (m = Parent b) then 1 else 0) ∧
  (∃ s' evs, destroy_ur_buffer_ {| this := b; log := l |} = Some (tt, s') ∧
             this s' = b ∧ log s' = l ++ evs ∧
             (∀ m, occurrences (EvMemRelease m) evs
                   = if decide (m = Parent b) then 1 else 0) ∧
             frees_of evs = [] ∧ host_frees_of evs = []).
Proof.
  intros HP.
  assert (isSubBuffer b = true) as Hsub by (by apply bool_decide_eq_true_2).
  split; [|split; [|split]].
  - unfold clear. unfold_M. simpl. by rewrite Hsub.
  - intros. subst s. unfold new_ur_buffer_, ctor_body, isSubBuffer. simpl.
    rewrite (bool_decide_eq_true_2 _ HP). split; [done|].
    split; [by rewrite <- app_assoc|].
    rewrite !occurrences_cons, occurrences_nil. rewrite decide_False by done.
    destruct (decide (m = Parent b)) as [->|Hm].
    + by rewrite decide_True.
    + rewrite decide_False; [done | congruence].
  - intros. subst s. unfold new_ur_buffer_native, ctor_body, isSubBuffer. simpl.
    rewrite (bool_decide_eq_true_2 _ HP). split; [done|].
    split; [by rewrite <- app_assoc|].
    rewrite !occurrences_cons, occurrences_nil. rewrite !decide_False by done.
    destruct (decide (m = Parent b)) as [->|Hm].
    + by rewrite decide_True.
    + rewrite decide_False; [done | congruence].
  - rewrite destroy_eq, Hsub.
    exists {| this := b;
              log := (l ++ [EvMemRelease (Parent b)])
                     ++ (if bool_decide (LastEventWritingToMemObj b ≠ nullptr)
                         then [EvEventRelease (LastEventWritingToMemObj b)] else []) |},
           ([EvMemRelease (Parent b)]
            ++ (if bool_decide (LastEventWritingToMemObj b ≠ nullptr)
                then [EvEventRelease (LastEventWritingToMemObj b)] else [])).
    split; [done|]. split; [done|]. split; [by rewrite <- app_assoc|].
    split; [|by destruct (bool_decide _)].
    intros m. rewrite occurrences_app, occurrences_cons, occurrences_nil.
    assert (occurrences (EvMemRelease m)
              (if bool_decide (LastEventWritingToMemObj b ≠ nullptr)
               then [EvEventRelease (LastEventWritingToMemObj b)] else []) = 0) as ->.
    { destruct (bool_decide _); [|done].
      rewrite occurrences_cons, occurrences_nil. by rewrite decide_False. }
    destruct (decide (m = Parent b)) as [->|Hm].
    + by rewrite decide_True.
    + rewrite decide_False; [done | congruence].
Qed.

(** ** Releasing the device allocations *)

Lemma default_last_cons {A : Type} (d x : A) (l : list A) :
  default d (last (x :: l)) = default x (last l).
Proof. rewrite last_cons. by destruct (last l). Qed.

(** The loop of [clear()], started at slot [i] with [n] slots to go. *)
Lemma clear_loop_eq (n : nat) :
  ∀ (i : nat) (Result : ur_result_t) (s : state),
    i + n = length (Ptrs (this s)) →
    ∃ Result' evs,
      clear_loop cuMemFree UR_CHECK_ERROR Result i n s
      = Some (Result', {| this := this s; log := log s ++ evs |}) ∧
      (frees_of evs).*1 = filter (λ p, p ≠ 0%Z) (drop i (Ptrs (this s))) ∧
      devices_of evs
      = (filter (λ ip : nat * Z, ip.2 ≠ 0%Z)
           (imap (λ k p, (i + k, p)) (drop i (Ptrs (this s))))).*1 ∧
      Result' = default Result (last (UR_CHECK_ERROR <$> (frees_of evs).*2)) ∧
      length evs = 2 * length (frees_of evs) ∧
      host_frees_of evs = [].
Proof.
  induction n as [|n IH]; intros i Result s Hlen.
  - exists Result, []. simpl. unfold_M. rewrite app_nil_r, state_eta.
    rewrite drop_ge by lia. done.
  - destruct (lookup_lt_is_Some_2 (Ptrs (this s)) i) as [p Hp]; [lia|].
    rewrite (drop_S _ _ _ Hp).
    simpl. unfold mbind at 1, M_bind at 1.
    unfold clear_slot, getPtrs. unfold_M. simpl. rewrite Hp.
    destruct (bool_decide_reflect (p ≠ 0%Z)) as [Hnz|Hz]; simpl.
    + set (r := cuMemFree (log s ++ [EvScopedDevice i]) p).
      destruct (IH (S i) (UR_CHECK_ERROR r)
                  {| this := this s;
                     log := (log s ++ [EvScopedDevice i]) ++ [EvCuMemFree p r] |})
        as (R' & evs & Hrun & Hf & Hd & HR & Hl & Hh); [simpl; lia|].
      exists R', ([EvScopedDevice i; EvCuMemFree p r] ++ evs).
      rewrite Hrun.
      change (frees_of ([EvScopedDevice i; EvCuMemFree p r] ++ evs))
        with ((p, r) :: frees_of evs).
      change (devices_of ([EvScopedDevice i; EvCuMemFree p r] ++ evs))
        with (i :: devices_of evs).
      change (host_frees_of ([EvScopedDevice i; EvCuMemFree p r] ++ evs))
        with (host_frees_of evs).
      rewrite !filter_cons_True by done.
      rewrite !fmap_cons, default_last_cons.
      cbn [this log fst snd length app] in *.
      rewrite Hf, Hd, Hl, <- HR, Hh, <- !app_assoc.
      repeat split; [| lia].
      do 2 f_equal; [lia|]. f_equal. apply imap_ext. intros; simpl. f_equal; lia.
    + apply dec_stable in Hz.
      destruct (IH (S i) Result s) as (R' & evs & Hrun & Hf & Hd & HR & Hl & Hh);
        [lia|].
      exists R', evs. rewrite Hrun.
      rewrite !filter_cons_False by (simpl; intros Hc; by apply Hc).
      rewrite Hf, Hd. repeat split; [|done..].
      do 2 f_equal. apply imap_ext. intros; simpl. f_equal; lia.
Qed.

Lemma slots_from_snd (v : list ptr) :
  ∀ k : nat,
    (filter (λ ip : nat * Z, ip.2 ≠ 0%Z) (imap (λ i p, (k + i, p)) v)).*2
    = filter (λ p, p ≠ 0%Z) v.
Proof.
  induction v as [|p v IHv]; intros k; [done|].
  rewrite imap_cons.
  rewrite (imap_ext _ (λ i p, (S k + i, p)) v) by (intros; simpl; f_equal; lia).
  rewrite !filter_cons. cbn [snd].
  case_decide; rewrite ?fmap_cons, IHv; done.
Qed.

Lemma non_empty_slots_snd (v : list ptr) :
  (non_empty_slots v).*2 = filter (λ p, p ≠ 0%Z) v.
Proof. apply (slots_from_snd v 0). Qed.

(** C3, as amended.  On a buffer without parent in [Classic] or [CopyIn]
    mode whose slot vector has one slot per device, [clear()] returns; it
    makes each device with a non-empty slot current and frees that slot, in
    index order, whatever the earlier frees answered, and calls nothing
    else; and its result is the checked status of the last free it made,
    success if it made none. *)
Theorem C3_clear_reports_last_attempt (b : ur_buffer_) (l : list event) :
  buffer_wf b →
  Parent b = nullptr →
  MemAllocMode b = Classic ∨ MemAllocMode b = CopyIn →
  ∃ Result evs,
    clear cuMemFree cuMemHostUnregister cuMemFreeHost UR_CHECK_ERROR
      {| this := b; log := l |}
    = Some (Result, {| this := b; log := l ++ evs |}) ∧
    (frees_of evs).*1 = (non_empty_slots (Ptrs b)).*2 ∧
    devices_of evs = (non_empty_slots (Ptrs b)).*1 ∧
    length evs = 2 * length (non_empty_slots (Ptrs b)) ∧
    Result = default UR_RESULT_SUCCESS (last (UR_CHECK_ERROR <$> (frees_of evs).*2)).
Proof.
  intros [HP _] Hpar Hmode.
  destruct (clear_loop_eq (NumDevices (Context (base b))) 0 UR_RESULT_SUCCESS
              {| this := b; log := l |})
    as (R & evs & Hrun & Hf & Hd & HR & Hl & _); [simpl; lia|].
  simpl in *. rewrite drop_0 in Hf, Hd.
  pose proof (non_empty_slots_snd (Ptrs b)) as Hsnd.
  exists R, evs. split.
  - unfold clear, isSubBuffer, getContext. unfold_M. simpl.
    rewrite bool_decide_eq_false_2 by (intros Hc; by apply Hc).
    destruct Hmode as [-> | ->]; exact Hrun.
  - split; [by rewrite Hsnd|]. split; [done|]. split; [|done].
    assert (length (frees_of evs) = length (non_empty_slots (Ptrs b))) as <-; [|lia].
    rewrite <- (length_fmap fst (frees_of evs)), Hf.
    by rewrite <- Hsnd, length_fmap.
Qed.

(** ** Map, unmap, map again *)

(** On a buffer without host pointer whose staging allocation succeeds, the
    three calls return, and what they leave does not mention the region or
    the flags of the first call. *)
Lemma map_unmap_map_staging (b : ur_buffer_) (l : list event)
    (S1 O1 : size_t) (F1 : ur_map_flags_t) (S2 O2 : size_t) (F2 : ur_map_flags_t) :
  MapPtr b = nullptr → HostPtr b = nullptr → malloc l (Size b) ≠ nullptr →
  let p1 := malloc l (Size b) in
  let l1 := l ++ [EvMalloc (Size b) p1; EvFree p1] in
  let p2 := malloc l1 (Size b) in
  (p ← mapToPtr malloc S1 O1 F1; (unmap p ;; mapToPtr malloc S2 O2 F2))
    {| this := b; log := l |}
  = Some (p2, {| this := set_MapPtr p2
                           (set_MapFlags F2 (set_MapOffset O2 (set_MapSize S2 b)));
                 log := l1 ++ [EvMalloc (Size b) p2] |}).
Proof.
  intros Hp Hh Hm p1 l1 p2. subst p1 l1 p2.
  assert (mapped_address malloc b l O1 = malloc l (Size b)) as Ha
    by (unfold mapped_address; by rewrite Hh).
  unfold mbind at 1, M_bind at 1. rewrite mapToPtr_eq, Ha by done.
  rewrite (bool_decide_eq_false_2 (HostPtr b ≠ nullptr)) by (intros Hc; by apply Hc).
  unfold mbind at 1, M_bind at 1. rewrite unmap_eq by done.
  cbn [HostPtr MapPtr set_MapPtr set_MapFlags set_MapOffset set_MapSize].
  rewrite bool_decide_eq_true_2 by (by rewrite Hh).
  rewrite mapToPtr_eq by done. unfold mapped_address.
  cbn [HostPtr Size set_MapPtr set_MapFlags set_MapOffset set_MapSize].
  rewrite (bool_decide_eq_false_2 (HostPtr b ≠ nullptr)) by (intros Hc; by apply Hc).
  by rewrite <- !app_assoc.
Qed.

(** C7.  The code on the buffers where the round trip breaks.  On a buffer
    over host memory with no mapping active, [mapToPtr] at an offset other
    than 0 followed by [unmap] makes exactly one call, [free], on
    [HostPtr + Offset]: a pointer different from [HostPtr], inside the
    caller's memory, while the log has gained no [malloc].  The second step
    of map, unmap, map thus hands the allocator memory it never gave out. *)
Theorem C7_round_trip_frees_host_alias (b : ur_buffer_) (l : list event)
    (S1 O1 : size_t) (F1 : ur_map_flags_t) :
  MapPtr b = nullptr → (0 < HostPtr b < 2 ^ 64)%Z → (0 < O1 < 2 ^ 64)%Z →
  ptr_add (HostPtr b) O1 ≠ nullptr →
  ∃ s', (p ← mapToPtr malloc S1 O1 F1; unmap p) {| this := b; log := l |}
        = Some (tt, s') ∧
        log s' = l ++ [EvFree (ptr_add (HostPtr b) O1)] ∧
        ptr_add (HostPtr b) O1 ≠ HostPtr b ∧
        host_frees_of (log s') = host_frees_of l ++ [ptr_add (HostPtr b) O1] ∧
        mallocs_of (log s') = mallocs_of l.
Proof.
  intros Hp Hh Ho Hnz.
  destruct (unmap_frees_alias_at_offset b l S1 O1 F1 Hp Hh Ho Hnz) as (s' & Hrun & Hlog).
  exists s'. split; [exact Hrun|]. split; [exact Hlog|].
  split; [apply ptr_add_neq; lia|].
  rewrite Hlog. unfold host_frees_of, mallocs_of. rewrite !omap_app. simpl.
  by rewrite app_nil_r.
Qed.

(** ** The map state while nothing is mapped *)





End Properties.

(** ** The statements at sample inputs *)

Lemma C10_refcount_uint32_witness :
  (0 ≤ RefCount Sample.released_handle < 2 ^ 32)%Z ∧
  (decrementReferenceCount Sample.released_handle).1 = (2 ^ 32 - 1)%Z ∧
  (incrementReferenceCount Sample.released_handle).1 = 1%Z.
Proof.
  assert (0 ≤ RefCount Sample.released_handle < 2 ^ 32)%Z as Hr by (simpl; lia).
  split; [exact Hr|].
  destruct (C10_refcount_uint32 Sample.released_handle Hr)
    as (_ & _ & Hinc & _ & Hdec & _).
  split; [apply Hdec; reflexivity | apply Hinc; simpl; lia].
Defined.

Lemma C2_writer_flags_witness :
  buffer_wf (this Sample.classic_buffer) ∧
  (8 : ptr) ≠ nullptr ∧
  Sample.getDeviceIndex 8 < NumDevices (Context (base (this Sample.classic_buffer))) ∧
  ∃ s', setLastEventWritingToMemObj Sample.getDeviceIndex 8 Sample.classic_buffer
        = Some (tt, s') ∧
        HaveMigratedToDeviceSinceLastWrite (this s') !! 1 = Some true ∧
        HaveMigratedToDeviceSinceLastWrite (this s') !! 0 = Some false.
Proof.
  assert (buffer_wf (this Sample.classic_buffer)) as Hwf by (split; reflexivity).
  assert ((8 : ptr) ≠ nullptr) as Hne by discriminate.
  assert (Sample.getDeviceIndex 8
          < NumDevices (Context (base (this Sample.classic_buffer)))) as Hidx
    by (vm_compute; lia).
  split; [exact Hwf|]. split; [exact Hne|]. split; [exact Hidx|].
  destruct (C2_writer_flags Sample.getDeviceIndex (this Sample.classic_buffer)
              (log Sample.classic_buffer) 8 Hwf Hne Hidx)
    as (s' & Hrun & Htrue & Hfalse & _).
  exists s'. split; [exact Hrun|]. split; [exact Htrue|].
  apply Hfalse; [vm_compute; lia | discriminate].
Defined.

(** C3 as the spec states it fails at [Sample.allocated_buffer].  The free on
    device 0 fails and the free on device 1 succeeds: [clear()] returns
    success, while the last failure among the two results is the result
    code 1 of the first free. *)
Lemma C3_last_failure_counterexample :
  clear Sample.cuMemFree Sample.cuMemHostUnregister Sample.cuMemFreeHost
    Sample.UR_CHECK_ERROR Sample.allocated_buffer
  = Some (UR_RESULT_SUCCESS, Sample.cleared_buffer) ∧
  frees_of (log Sample.cleared_buffer) = [(100, 1); (200, CUDA_SUCCESS)]%Z ∧
  last_failure (Sample.UR_CHECK_ERROR <$> (frees_of (log Sample.cleared_buffer)).*2)
  = 1%Z ∧
  UR_RESULT_SUCCESS
  ≠ last_failure (Sample.UR_CHECK_ERROR <$> (frees_of (log Sample.cleared_buffer)).*2).
Proof. repeat split. discriminate. Qed.

Lemma C3_clear_reports_last_attempt_witness :
  buffer_wf (this Sample.allocated_buffer) ∧
  Parent (this Sample.allocated_buffer) = nullptr ∧
  MemAllocMode (this Sample.allocated_buffer) = Classic ∧
  ∃ Result evs,
    clear Sample.cuMemFree Sample.cuMemHostUnregister Sample.cuMemFreeHost
      Sample.UR_CHECK_ERROR Sample.allocated_buffer
    = Some (Result, {| this := this Sample.allocated_buffer; log := [] ++ evs |}) ∧
    (frees_of evs).*1 = [100; 200]%Z ∧
    devices_of evs = [0; 1] ∧
    Result = default UR_RESULT_SUCCESS (last (Sample.UR_CHECK_ERROR <$> (frees_of evs).*2)).
Proof.
  assert (buffer_wf (this Sample.allocated_buffer)) as Hwf by (split; reflexivity).
  split; [exact Hwf|]. split; [reflexivity|]. split; [reflexivity|].
  destruct (C3_clear_reports_last_attempt Sample.cuMemFree Sample.cuMemHostUnregister
              Sample.cuMemFreeHost Sample.UR_CHECK_ERROR
              (this Sample.allocated_buffer) [] Hwf eq_refl (or_introl eq_refl))
    as (R & evs & Hrun & Hf & Hd & _ & HR).
  exists R, evs. split; [exact Hrun|]. split; [exact Hf|]. split; [exact Hd|]. exact HR.
Defined.

Lemma C4_sub_buffer_ownership_witness :
  Parent (this Sample.sub_buffer) ≠ nullptr ∧
  clear Sample.cuMemFree Sample.cuMemHostUnregister Sample.cuMemFreeHost
    Sample.UR_CHECK_ERROR Sample.sub_buffer
  = Some (UR_RESULT_SUCCESS, Sample.sub_buffer) ∧
  log Sample.sub_buffer = [EvContextRetain; EvMemRetain 512] ∧
  ∃ s' evs, destroy_ur_buffer_ Sample.sub_buffer = Some (tt, s') ∧
            log s' = log Sample.sub_buffer ++ evs ∧
            occurrences (EvMemRelease 512) evs = 1.
Proof.
  assert (Parent (this Sample.sub_buffer) ≠ nullptr) as HP by discriminate.
  split; [exact HP|].
  destruct (C4_sub_buffer_ownership Sample.cuMemFree Sample.cuMemHostUnregister
              Sample.cuMemFreeHost Sample.UR_CHECK_ERROR
              (this Sample.sub_buffer) (log Sample.sub_buffer) HP)
    as (Hclear & _ & _ & s' & evs & Hrun & _ & Hlog & Hrel & _).
  split; [exact Hclear|]. split; [reflexivity|].
  exists s', evs. split; [exact Hrun|]. split; [exact Hlog|]. apply (Hrel 512%Z).
Defined.




Lemma C7_round_trip_frees_host_alias_witness :
  MapPtr (this Sample.host_buffer) = nullptr ∧
  (0 < HostPtr (this Sample.host_buffer) < 2 ^ 64)%Z ∧
  (0 < 16 < 2 ^ 64)%Z ∧
  ptr_add (HostPtr (this Sample.host_buffer)) 16 ≠ nullptr ∧
  ∃ s', (p ← mapToPtr Sample.malloc 256 16 UR_MAP_FLAG_WRITE; unmap p)
          Sample.host_buffer = Some (tt, s') ∧
        host_frees_of (log s') = [(Sample.H + 16)%Z] ∧
        mallocs_of (log s') = [].
Proof.
  assert (0 < HostPtr (this Sample.host_buffer) < 2 ^ 64)%Z as Hh
    by (vm_compute; split; reflexivity).
  assert (0 < 16 < 2 ^ 64)%Z as Ho by (vm_compute; split; reflexivity).
  assert (ptr_add (HostPtr (this Sample.host_buffer)) 16 ≠ nullptr) as Hnz
    by (vm_compute; discriminate).
  split; [reflexivity|]. split; [exact Hh|]. split; [exact Ho|]. split; [exact Hnz|].
  destruct (C7_round_trip_frees_host_alias Sample.malloc (this Sample.host_buffer)
              (log Sample.host_buffer) 256 16 UR_MAP_FLAG_WRITE eq_refl Hh Ho Hnz)
    as (s' & Hrun & _ & _ & Hfree & Hmal).
  exists s'. split; [exact Hrun|]. split; [exact Hfree | exact Hmal].
Defined.

Lemma C8_single_tracked_writer_witness :
  (8 : ptr) ≠ nullptr ∧
  length (HaveMigratedToDeviceSinceLastWrite (this Sample.classic_buffer))
  = NumDevices (Context (base (this Sample.classic_buffer))) ∧
  ∃ s', setLastEventWritingToMemObj Sample.getDeviceIndex 8 Sample.classic_buffer
        = Some (tt, s') ∧
        LastEventWritingToMemObj (this s') = 8%Z ∧
        log s' = log Sample.classic_buffer ++ [] ++ [EvEventRetain 8].
Proof.
  assert ((8 : ptr) ≠ nullptr) as Hne by discriminate.
  split; [exact Hne|]. split; [reflexivity|].
  destruct (C8_single_tracked_writer Sample.getDeviceIndex (this Sample.classic_buffer)
              (log Sample.classic_buffer) 8 Hne eq_refl)
    as ((s' & Hrun & Hlast & Hlog & _) & _).
  exists s'. split; [exact Hrun|]. split; [exact Hlast | exact Hlog].
Defined.

Lemma C9_alias_decision_ignores_mode_witness :
  MapPtr (this Sample.copy_in_buffer) = nullptr ∧
  HostPtr (this Sample.copy_in_buffer) ≠ nullptr ∧
  ∃ s', mapToPtr Sample.malloc 256 16 UR_MAP_FLAG_WRITE
          {| this := set_MemAllocMode CopyIn (this Sample.copy_in_buffer);
             log := log Sample.copy_in_buffer |}
        = Some (ptr_add Sample.H 16, s') ∧
        log s' = log Sample.copy_in_buffer.
Proof.
  assert (HostPtr (this Sample.copy_in_buffer) ≠ nullptr) as Hh by discriminate.
  split; [reflexivity|]. split; [exact Hh|].
  destruct (C9_alias_decision_ignores_mode Sample.malloc (this Sample.copy_in_buffer)
              (log Sample.copy_in_buffer) 256 16 UR_MAP_FLAG_WRITE CopyIn Classic eq_refl)
    as [Halias _].
  destruct (Halias Hh) as (s' & Hrun & Hlog & _).
  exists s'. split; [exact Hrun | exact Hlog].
Defined.

(** ** Member functions read backwards *)

Lemma bind_ret_inv {A : Type} (c : M A) (s s' : state) :
  (c ;; mret tt) s = Some (tt, s') → ∃ x, c s = Some (x, s').
Proof.
  unfold mbind, M_bind, mret, M_ret. destruct (c s) as [[x s1]|]; [|done].
  intros [= <-]. by exists x.
Qed.

Lemma mapToPtr_inv malloc (s s' : state) (Size0 Offset : size_t)
    (Flags : ur_map_flags_t) (p : ptr) :
  mapToPtr malloc Size0 Offset Flags s = Some (p, s') →
  MapPtr (this s) = nullptr ∧
  p = mapped_address malloc (this s) (log s) Offset ∧
  this s' = set_MapPtr p (set_MapFlags Flags
              (set_MapOffset Offset (set_MapSize Size0 (this s)))) ∧
  log s' = if bool_decide (HostPtr (this s) ≠ nullptr) then log s
           else log s ++ [EvMalloc (Size (this s)) p].
Proof.
  destruct s as [b l]. simpl. intros Hrun.
  destruct (decide (MapPtr b = nullptr)) as [Hb|Hb].
  - rewrite mapToPtr_eq in Hrun by done. injection Hrun as <- <-.
    repeat split; try done. simpl. unfold mapped_address.
    by destruct (bool_decide (HostPtr b ≠ nullptr)).
  - by rewrite mapToPtr_fails_when_mapped in Hrun.
Qed.

Lemma unmap_inv (s s' : state) (q : ptr) :
  unmap q s = Some (tt, s') →
  MapPtr (this s) ≠ nullptr ∧
  this s' = set_MapOffset 0 (set_MapPtr nullptr (set_MapSize 0 (this s))) ∧
  log s' = if bool_decide (MapPtr (this s) ≠ HostPtr (this s))
           then log s ++ [EvFree (MapPtr (this s))] else log s.
Proof.
  destruct s as [b l]. simpl. intros Hrun.
  destruct (decide (MapPtr b = nullptr)) as [Hb|Hb].
  - by rewrite unmap_fails_when_unmapped in Hrun.
  - rewrite unmap_eq in Hrun by done. by injection Hrun as <-.
Qed.

Lemma getMapFlags_inv (s s' : state) (f : ur_map_flags_t) :
  getMapFlags s = Some (f, s') →
  s' = s ∧ MapPtr (this s) ≠ nullptr ∧ f = MapFlags (this s).
Proof.
  unfold getMapFlags. unfold_M.
  destruct (bool_decide_reflect (MapPtr (this s) ≠ nullptr)); [|done].
  by intros [= <- <-].
Qed.

Lemma getNativePtr_inv getIndex (s s' : state) (hDevice p : ptr) :
  getNativePtr getIndex hDevice s = Some (p, s') →
  s' = s ∧ hDevice ≠ nullptr ∧ Ptrs (this s) !! getIndex hDevice = Some p.
Proof.
  unfold getNativePtr. unfold_M.
  destruct (bool_decide_reflect (hDevice ≠ nullptr)); [|done].
  destruct (Ptrs (this s) !! getIndex hDevice); [|done].
  by intros [= <- <-].
Qed.

Lemma clear_loop_inv cuMemFree CHK (n : nat) :
  ∀ (i : nat) (Result Result' : ur_result_t) (s s' : state),
    clear_loop cuMemFree CHK Result i n s = Some (Result', s') →
    this s' = this s ∧
    ∃ evs, log s' = log s ++ evs ∧ host_frees_of evs = [] ∧ mallocs_of evs = [].
Proof.
  induction n as [|n IH]; intros i R R' s s' Hrun.
  - simpl in Hrun. unfold_M. injection Hrun as <- <-.
    split; [done|]. exists []. by rewrite app_nil_r.
  - simpl in Hrun. unfold mbind at 1, M_bind at 1 in Hrun.
    unfold clear_slot, getPtrs in Hrun. unfold_M. simpl in Hrun.
    destruct (Ptrs (this s) !! i) as [p|]; [|done].
    destruct (bool_decide (p ≠ 0%Z)); simpl in Hrun.
    + apply IH in Hrun as (Hthis & evs & Hlog & Hf & Hm). simpl in *.
      split; [done|].
      exists ([EvScopedDevice i;
               EvCuMemFree p (cuMemFree (log s ++ [EvScopedDevice i]) p)] ++ evs).
      rewrite Hlog, <- !app_assoc. split; [done|].
      unfold host_frees_of, mallocs_of in *. by rewrite !omap_app, Hf, Hm.
    + by apply IH in Hrun.
Qed.

Lemma clear_inv cuMemFree cuMemHostUnregister cuMemFreeHost CHK
    (s s' : state) (Result : ur_result_t) :
  clear cuMemFree cuMemHostUnregister cuMemFreeHost CHK s = Some (Result, s') →
  this s' = this s ∧
  ∃ evs, log s' = log s ++ evs ∧ host_frees_of evs = [] ∧ mallocs_of evs = [].
Proof.
  unfold clear. unfold_M. simpl.
  destruct (isSubBuffer (this s)).
  { intros [= <- <-]. split; [done|]. exists []. by rewrite app_nil_r. }
  destruct (MemAllocMode (this s)).
  - apply clear_loop_inv.
  - intros [= <- <-]. split; [done|]. by eexists.
  - apply clear_loop_inv.
  - intros [= <- <-]. split; [done|]. by eexists.
Qed.

Lemma set_flag_loop_len (idx n : nat) :
  ∀ (i : nat) (s s' : state),
    for_loop i n (set_flag idx) s = Some (tt, s') →
    length (HaveMigratedToDeviceSinceLastWrite (this s'))
    = length (HaveMigratedToDeviceSinceLastWrite (this s)).
Proof.
  induction n as [|n IH]; intros i s s' Hrun.
  - simpl in Hrun. unfold_M. by injection Hrun as <-.
  - rewrite for_loop_S in Hrun. unfold set_flag at 1 in Hrun. unfold_M.
    simpl in Hrun. case_decide; [|done].
    apply IH in Hrun. simpl in Hrun. by rewrite length_insert in Hrun.
Qed.

Lemma setLastEvent_inv_log getDeviceIndex (s s' : state) (NewEvent : ptr) :
  setLastEventWritingToMemObj getDeviceIndex NewEvent s = Some (tt, s') →
  NewEvent ≠ nullptr ∧
  (∃ v, this s' = set_HaveMigrated v (set_LastEventWritingToMemObj NewEvent (this s)) ∧
        length v = length (HaveMigratedToDeviceSinceLastWrite (this s))) ∧
  ∃ evs, log s' = log s ++ evs ∧ host_frees_of evs = [] ∧ mallocs_of evs = [].
Proof.
  intros Hrun. pose proof (setLastEvent_inv _ _ _ _ Hrun) as [v Hv].
  revert Hrun. unfold setLastEventWritingToMemObj. unfold_M. simpl.
  destruct (bool_decide_reflect (NewEvent ≠ nullptr)) as [Hne|]; [|done].
  split; [done|].
  destruct (bool_decide (LastEventWritingToMemObj (this s) ≠ nullptr)); simpl in Hrun;
    pose proof (set_flag_loop_len _ _ _ _ _ Hrun) as Hlen;
    apply set_flag_loop_inv in Hrun as (_ & _ & Hlog); simpl in Hlen, Hlog;
    (split; [exists v; split; [done|]; by rewrite Hv in Hlen|]);
    rewrite Hlog, <- ?app_assoc; by eexists.
Qed.

(** ** What no sequence of calls changes *)

Lemma invoke_frame (E : collaborators) (m : method) (s s' : state) :
  invoke E m s = Some (tt, s') →
  base (this s') = base (this s) ∧ Parent (this s') = Parent (this s) ∧
  Ptrs (this s') = Ptrs (this s) ∧ HostPtr (this s') = HostPtr (this s) ∧
  Size (this s') = Size (this s) ∧ MemAllocMode (this s') = MemAllocMode (this s) ∧
  length (HaveMigratedToDeviceSinceLastWrite (this s'))
  = length (HaveMigratedToDeviceSinceLastWrite (this s)) ∧
  ∃ evs, log s' = log s ++ evs.
Proof.
  destruct m; simpl; intros Hrun.
  - apply bind_ret_inv in Hrun as [p Hrun].
    apply mapToPtr_inv in Hrun as (_ & _ & -> & ->). repeat split.
    destruct (bool_decide _); [exists []; by rewrite app_nil_r | by eexists].
  - apply unmap_inv in Hrun as (_ & -> & ->). repeat split.
    destruct (bool_decide _); [by eexists | exists []; by rewrite app_nil_r].
  - apply bind_ret_inv in Hrun as [f Hrun].
    apply getMapFlags_inv in Hrun as (-> & _). repeat split.
    exists []. by rewrite app_nil_r.
  - apply bind_ret_inv in Hrun as [p Hrun].
    apply getNativePtr_inv in Hrun as (-> & _). repeat split.
    exists []. by rewrite app_nil_r.
  - apply bind_ret_inv in Hrun as [R Hrun].
    apply clear_inv in Hrun as (-> & evs & -> & _). repeat split. by exists evs.
  - apply setLastEvent_inv_log in Hrun as (_ & (v & -> & Hlen) & evs & -> & _).
    repeat split; [done|]. by exists evs.
Qed.

Lemma run_calls_cons (E : collaborators) (m : method) (ms : list method)
    (s s' : state) :
  run_calls E (m :: ms) s = Some (tt, s') →
  ∃ s1, invoke E m s = Some (tt, s1) ∧ run_calls E ms s1 = Some (tt, s').
Proof.
  simpl. unfold mbind, M_bind.
  destruct (invoke E m s) as [[[] s1]|]; [|done]. intros Hrun. by exists s1.
Qed.

Lemma run_calls_frame (E : collaborators) (ms : list method) :
  ∀ s s', run_calls E ms s = Some (tt, s') →
    base (this s') = base (this s) ∧ Parent (this s') = Parent (this s) ∧
    Ptrs (this s') = Ptrs (this s) ∧ HostPtr (this s') = HostPtr (this s) ∧
    Size (this s') = Size (this s) ∧ MemAllocMode (this s') = MemAllocMode (this s) ∧
    (buffer_wf (this s) → buffer_wf (this s')) ∧
    ∃ evs, log s' = log s ++ evs.
Proof.
  induction ms as [|m ms IH]; intros s s' Hrun.
  - simpl in Hrun. unfold_M. injection Hrun as <-.
    do 6 (split; [done|]). split; [done|].
    exists []. by rewrite app_nil_r.
  - apply run_calls_cons in Hrun as (s1 & Hstep & Hrest).
    apply invoke_frame in Hstep as (Hb & Hp & Hs & Hh & Hz & Hm & Hl & evs1 & Hlog1).
    apply IH in Hrest as (Hb' & Hp' & Hs' & Hh' & Hz' & Hm' & Hwf & evs2 & Hlog2).
    rewrite Hb', Hp', Hs', Hh', Hz', Hm'.
    do 6 (split; [done|]). split.
    + intros [H1 H2]. apply Hwf. split; congruence.
    + exists (evs1 ++ evs2). by rewrite Hlog2, Hlog1, app_assoc.
Qed.

(** X7.  Whatever member functions are called on a buffer, in whatever
    order, as long as each call returns: the base part (context, reference
    count, flags), the parent, the device slots, the host pointer, the size
    and the allocation mode stay what they were, the per-device vectors keep
    their length, and the log only grows. *)
Theorem X7_calls_keep_configuration (E : collaborators) (ms : list method) :
  ∀ s s', run_calls E ms s = Some (tt, s') →
    base (this s') = base (this s) ∧ Parent (this s') = Parent (this s) ∧
    Ptrs (this s') = Ptrs (this s) ∧ HostPtr (this s') = HostPtr (this s) ∧
    Size (this s') = Size (this s) ∧ MemAllocMode (this s') = MemAllocMode (this s) ∧
    (buffer_wf (this s) → buffer_wf (this s')) ∧
    ∃ evs, log s' = log s ++ evs.
Proof. apply run_calls_frame. Qed.

(** ** Staging allocations over a whole life *)

Lemma invoke_staging (E : collaborators) (m : method) (s s' : state) :
  HostPtr (this s) = nullptr → staging_accounted s →
  invoke E m s = Some (tt, s') →
  staging_accounted s'.
Proof.
  unfold staging_accounted, host_frees_of, mallocs_of. intros Hh Hacc.
  destruct m; simpl; intros Hrun.
  - apply bind_ret_inv in Hrun as [p Hrun].
    apply mapToPtr_inv in Hrun as (Hnull & _ & -> & ->).
    rewrite Hnull in Hacc. rewrite app_nil_r in Hacc.
    rewrite bool_decide_eq_false_2 by (intros Hc; by apply Hc).
    rewrite !omap_app, fmap_app, filter_app, <- Hacc. simpl.
    rewrite app_nil_r. f_equal.
    destruct (bool_decide_reflect (p ≠ nullptr)) as [Hp|Hp].
    + by rewrite filter_cons_True.
    + by rewrite filter_cons_False.
  - apply unmap_inv in Hrun as (Hmapped & -> & ->).
    rewrite (bool_decide_eq_true_2 _ Hmapped) in Hacc. rewrite Hh.
    rewrite (bool_decide_eq_true_2 _ Hmapped). simpl.
    rewrite !omap_app. simpl. by rewrite !app_nil_r.
  - apply bind_ret_inv in Hrun as [f Hrun].
    by apply getMapFlags_inv in Hrun as (-> & _).
  - apply bind_ret_inv in Hrun as [p Hrun].
    by apply getNativePtr_inv in Hrun as (-> & _).
  - apply bind_ret_inv in Hrun as [R Hrun].
    apply clear_inv in Hrun as (-> & evs & -> & Hf & Hm).
    unfold host_frees_of, mallocs_of in Hf, Hm.
    by rewrite !omap_app, Hf, Hm, !app_nil_r.
  - apply setLastEvent_inv_log in Hrun as (_ & (v & -> & _) & evs & -> & Hf & Hm).
    unfold host_frees_of, mallocs_of in Hf, Hm. simpl.
    by rewrite !omap_app, Hf, Hm, !app_nil_r.
Qed.

(** X5.  For a buffer without host pointer, built with an empty log by
    either constructor, every run of member-function calls that returns
    keeps the staging allocations accounted for: the non-null pointers
    [malloc] answered are, in order, the pointers passed to [free], followed
    by the pointer of the mapping if one is active.  So each staging
    allocation is freed once, nothing else is ever freed, and at most the
    active mapping is outstanding. *)
Theorem X5_staging_accounted (E : collaborators) (ms : list method) :
  (∀ Ctx Parent0 Flags Mode Size0,
     staging_accounted (new_ur_buffer_ Ctx Parent0 Flags Mode nullptr Size0 [])) ∧
  (∀ Ctx Device Parent0 Flags Mode Size0,
     staging_accounted (new_ur_buffer_native Ctx Device Parent0 Flags Mode nullptr Size0 [])) ∧
  (∀ s s', HostPtr (this s) = nullptr → staging_accounted s →
     run_calls E ms s = Some (tt, s') → staging_accounted s').
Proof.
  split; [|split].
  - intros. unfold staging_accounted, new_ur_buffer_, ctor_body. simpl.
    by destruct (isSubBuffer _).
  - intros. unfold staging_accounted, new_ur_buffer_native, ctor_body. simpl.
    by destruct (isSubBuffer _).
  - induction ms as [|m ms IH]; intros s s' Hh Hacc Hrun.
    + simpl in Hrun. unfold_M. by injection Hrun as <-.
    + apply run_calls_cons in Hrun as (s1 & Hstep & Hrest).
      apply (IH s1 s'); [|by eapply invoke_staging|done].
      apply invoke_frame in Hstep as (_ & _ & _ & -> & _). done.
Qed.

Lemma invoke_host (E : collaborators) (m : method) (s s' : state) :
  HostPtr (this s) ≠ nullptr →
  invoke E m s = Some (tt, s') →
  mallocs_of (log s') = mallocs_of (log s).
Proof.
  unfold mallocs_of. intros Hh.
  destruct m; simpl; intros Hrun.
  - apply bind_ret_inv in Hrun as [p Hrun].
    apply mapToPtr_inv in Hrun as (_ & _ & _ & ->).
    by rewrite (bool_decide_eq_true_2 _ Hh).
  - apply unmap_inv in Hrun as (_ & _ & ->).
    destruct (bool_decide _); [|done]. rewrite omap_app. simpl. by rewrite app_nil_r.
  - apply bind_ret_inv in Hrun as [f Hrun].
    by apply getMapFlags_inv in Hrun as (-> & _).
  - apply bind_ret_inv in Hrun as [p Hrun].
    by apply getNativePtr_inv in Hrun as (-> & _).
  - apply bind_ret_inv in Hrun as [R Hrun].
    apply clear_inv in Hrun as (_ & evs & -> & _ & Hm).
    unfold mallocs_of in Hm. by rewrite omap_app, Hm, app_nil_r.
  - apply setLastEvent_inv_log in Hrun as (_ & _ & evs & -> & _ & Hm).
    unfold mallocs_of in Hm. by rewrite omap_app, Hm, app_nil_r.
Qed.

(** X6.  A buffer with a host pointer never asks the allocator for memory:
    over every run of member-function calls that returns, the log gains no
    [malloc]. *)
Theorem X6_host_backed_never_allocates (E : collaborators) (ms : list method) :
  ∀ s s', HostPtr (this s) ≠ nullptr →
    run_calls E ms s = Some (tt, s') →
    mallocs_of (log s') = mallocs_of (log s).
Proof.
  induction ms as [|m ms IH]; intros s s' Hh Hrun.
  - simpl in Hrun. unfold_M. by injection Hrun as <-.
  - apply run_calls_cons in Hrun as (s1 & Hstep & Hrest).
    rewrite (IH s1 s'); [by eapply invoke_host| |done].
    apply invoke_frame in Hstep as (_ & _ & _ & -> & _). done.
Qed.

(** ** Reference counts there and back *)

Lemma set_RefCount_same (m : ur_mem_handle_t_) : set_RefCount (RefCount m) m = m.
Proof. by destruct m. Qed.

Lemma retain_n_eq (k : nat) (m : ur_mem_handle_t_) :
  (0 ≤ RefCount m < 2 ^ 32)%Z →
  retain_n k m = set_RefCount (uint32_wrap (RefCount m + Z.of_nat k)) m.
Proof.
  intros Hc. induction k as [|k IH].
  - simpl. rewrite Z.add_0_r, uint32_wrap_small by done.
    by rewrite set_RefCount_same.
  - change (retain_n (S k) m) with (incrementReferenceCount (retain_n k m)).2.
    rewrite IH. simpl. unfold set_RefCount. simpl. f_equal.
    unfold uint32_wrap, uint32_modulus.
    rewrite Zplus_mod_idemp_l. f_equal. lia.
Qed.

Lemma release_n_eq (k : nat) (m : ur_mem_handle_t_) :
  (0 ≤ RefCount m < 2 ^ 32)%Z →
  release_n k m = set_RefCount (uint32_wrap (RefCount m - Z.of_nat k)) m.
Proof.
  intros Hc. induction k as [|k IH].
  - simpl. rewrite Z.sub_0_r, uint32_wrap_small by done.
    by rewrite set_RefCount_same.
  - change (release_n (S k) m) with (decrementReferenceCount (release_n k m)).2.
    rewrite IH. simpl. unfold set_RefCount. simpl. f_equal.
    unfold uint32_wrap, uint32_modulus.
    rewrite Zminus_mod_idemp_l. f_equal. lia.
Qed.

(** X1.  Retain and release undo each other on every 32-bit count, also
    across the wrap-around at either end: [k] retains followed by [k]
    releases, or [k] releases followed by [k] retains, give back the object
    as it was, and a release right after a retain returns the count from
    before the retain. *)
Theorem X1_retain_release_round_trip (k : nat) (m : ur_mem_handle_t_) :
  (0 ≤ RefCount m < 2 ^ 32)%Z →
  release_n k (retain_n k m) = m ∧
  retain_n k (release_n k m) = m ∧
  (decrementReferenceCount (incrementReferenceCount m).2).1 = RefCount m ∧
  (incrementReferenceCount (decrementReferenceCount m).2).1 = RefCount m.
Proof.
  intros Hc. split; [|split; [|split]].
  - rewrite retain_n_eq by done. rewrite release_n_eq by apply uint32_wrap_range.
    simpl. unfold set_RefCount. simpl. unfold uint32_wrap, uint32_modulus.
    rewrite Zminus_mod_idemp_l.
    replace (RefCount m + Z.of_nat k - Z.of_nat k)%Z with (RefCount m) by lia.
    rewrite Z.mod_small by done. by destruct m.
  - rewrite release_n_eq by done. rewrite retain_n_eq by apply uint32_wrap_range.
    simpl. unfold set_RefCount. simpl. unfold uint32_wrap, uint32_modulus.
    rewrite Zplus_mod_idemp_l.
    replace (RefCount m - Z.of_nat k + Z.of_nat k)%Z with (RefCount m) by lia.
    rewrite Z.mod_small by done. by destruct m.
  - simpl. unfold uint32_wrap, uint32_modulus. rewrite Zminus_mod_idemp_l.
    replace (RefCount m + 1 - 1)%Z with (RefCount m) by lia. by apply Z.mod_small.
  - simpl. unfold uint32_wrap, uint32_modulus. rewrite Zplus_mod_idemp_l.
    replace (RefCount m - 1 + 1)%Z with (RefCount m) by lia. by apply Z.mod_small.
Qed.

(** ** One mapping at a time *)

(** X2.  Once [mapToPtr] has handed out a pointer, the accessors show that
    pointer and the size, offset and flags of the call, and every further
    [mapToPtr], with whatever arguments and allocator, fails its assertion
    until the mapping is released. *)
Theorem X2_mapping_is_exclusive malloc (s s1 : state) (Size0 Offset : size_t)
    (Flags : ur_map_flags_t) (p : ptr) :
  mapToPtr malloc Size0 Offset Flags s = Some (p, s1) →
  p ≠ nullptr →
  getMapPtr (this s1) = p ∧ getMapSize (this s1) = Size0 ∧
  getMapOffset (this s1) = Offset ∧ getMapFlags s1 = Some (Flags, s1) ∧
  ∀ malloc' Size' Offset' Flags', mapToPtr malloc' Size' Offset' Flags' s1 = None.
Proof.
  intros Hrun Hp. apply mapToPtr_inv in Hrun as (_ & _ & Hthis & _).
  assert (MapPtr (this s1) = p) as Hmp by (by rewrite Hthis).
  split; [done|]. split; [by rewrite Hthis|]. split; [by rewrite Hthis|]. split.
  - unfold getMapFlags. unfold_M. rewrite Hmp.
    rewrite (bool_decide_eq_true_2 _ Hp). by rewrite Hthis.
  - intros. apply mapToPtr_fails_when_mapped. by rewrite Hmp.
Qed.

(** X3.  [unmap] and [getMapFlags] need an active mapping.  Both fail their
    assertion on an object fresh from either constructor (although the
    constructor stored [UR_MAP_FLAG_WRITE] as flags), and both fail again
    right after an [unmap] that returned; a new [mapToPtr] is accepted
    then. *)
Theorem X3_unmap_needs_mapping malloc :
  (∀ Ctx Parent0 Flags Mode HostPtr0 Size0 l q,
     unmap q (new_ur_buffer_ Ctx Parent0 Flags Mode HostPtr0 Size0 l) = None ∧
     getMapFlags (new_ur_buffer_ Ctx Parent0 Flags Mode HostPtr0 Size0 l) = None) ∧
  (∀ Ctx Device Parent0 Flags Mode HostPtr0 Size0 l q,
     unmap q (new_ur_buffer_native Ctx Device Parent0 Flags Mode HostPtr0 Size0 l) = None ∧
     getMapFlags (new_ur_buffer_native Ctx Device Parent0 Flags Mode HostPtr0 Size0 l)
     = None) ∧
  (∀ s q s', unmap q s = Some (tt, s') →
     (∀ q', unmap q' s' = None) ∧ getMapFlags s' = None ∧
     ∀ Size0 Offset Flags, is_Some (mapToPtr malloc Size0 Offset Flags s')).
Proof.
  split; [|split].
  - intros. split; [by apply unmap_fails_when_unmapped|].
    unfold getMapFlags. unfold_M. done.
  - intros. split; [by apply unmap_fails_when_unmapped|].
    unfold getMapFlags. unfold_M. done.
  - intros s q s' Hrun. apply unmap_inv in Hrun as (_ & Hthis & _).
    assert (MapPtr (this s') = nullptr) as Hnull by (by rewrite Hthis).
    split; [|split].
    + intros. by apply unmap_fails_when_unmapped.
    + unfold getMapFlags. unfold_M. by rewrite Hnull.
    + intros. destruct s' as [b' l']. simpl in Hnull.
      rewrite mapToPtr_eq by done. by eexists.
Qed.

(** X4.  When the buffer has no host pointer and the allocator answers null,
    [mapToPtr] returns null without failing.  It has already stored the size
    and offset of the request, so the object shows a size and an offset with
    a null pointer; no mapping is active: [unmap] and [getMapFlags] fail,
    and a later [mapToPtr] is accepted. *)
Theorem X4_staging_allocation_fails malloc (b : ur_buffer_) (l : list event)
    (Size0 Offset : size_t) (Flags : ur_map_flags_t) :
  MapPtr b = nullptr → HostPtr b = nullptr → malloc l (getSize b) = nullptr →
  ∃ s1, mapToPtr malloc Size0 Offset Flags {| this := b; log := l |}
        = Some (nullptr, s1) ∧
        log s1 = l ++ [EvMalloc (getSize b) nullptr] ∧
        getMapPtr (this s1) = nullptr ∧ getMapSize (this s1) = Size0 ∧
        getMapOffset (this s1) = Offset ∧
        (∀ q, unmap q s1 = None) ∧ getMapFlags s1 = None ∧
        ∀ malloc' Size' Offset' Flags',
          is_Some (mapToPtr malloc' Size' Offset' Flags' s1).
Proof.
  intros Hp Hh Hm. unfold getSize in *.
  rewrite mapToPtr_eq by done. unfold mapped_address. rewrite Hh, Hm. simpl.
  eexists. split; [reflexivity|]. simpl.
  do 4 (split; [done|]). split; [|split].
  - intros. by apply unmap_fails_when_unmapped.
  - unfold getMapFlags. unfold_M. done.
  - intros. rewrite mapToPtr_eq by done. by eexists.
Qed.

(** ** More on [clear()] *)

Lemma clear_device_eq cuMemFree cuMemHostUnregister cuMemFreeHost CHK
    (b : ur_buffer_) (l : list event) :
  length (Ptrs b) = NumDevices (Context (base b)) →
  Parent b = nullptr →
  MemAllocMode b = Classic ∨ MemAllocMode b = CopyIn →
  ∃ Result evs,
    clear cuMemFree cuMemHostUnregister cuMemFreeHost CHK {| this := b; log := l |}
    = Some (Result, {| this := b; log := l ++ evs |}) ∧
    (frees_of evs).*1 = filter (λ p, p ≠ 0%Z) (Ptrs b) ∧
    length evs = 2 * length (frees_of evs) ∧
    host_frees_of evs = [].
Proof.
  intros HP Hpar Hmode.
  destruct (clear_loop_eq cuMemFree CHK (NumDevices (Context (base b))) 0
              UR_RESULT_SUCCESS {| this := b; log := l |})
    as (R & evs & Hrun & Hf & _ & _ & Hl & Hh); [simpl; lia|].
  simpl in *. rewrite drop_0 in Hf.
  exists R, evs. split; [|split; [done|]; split; [lia|done]].
  unfold clear, isSubBuffer, getContext. unfold_M. simpl.
  rewrite bool_decide_eq_false_2 by (intros Hc; by apply Hc).
  destruct Hmode as [-> | ->]; exact Hrun.
Qed.

(** X8.  Which storage [clear()] releases is decided by the allocation mode
    alone.  On a buffer without parent: in [Classic] and [CopyIn] mode the
    driver frees are exactly the non-empty device slots; in [UseHostPtr]
    mode the only call is [cuMemHostUnregister(HostPtr)] and in
    [AllocHostPtr] mode the only call is [cuMemFreeHost(HostPtr)], whatever
    the device slots hold, and the result is the checked status of that
    call.  In no mode is anything passed to [free]. *)
Theorem X8_clear_by_mode cuMemFree cuMemHostUnregister cuMemFreeHost CHK
    (b : ur_buffer_) (l : list event) :
  buffer_wf b → Parent b = nullptr →
  ∃ Result evs,
    clear cuMemFree cuMemHostUnregister cuMemFreeHost CHK {| this := b; log := l |}
    = Some (Result, {| this := b; log := l ++ evs |}) ∧
    (frees_of evs).*1
    = (if bool_decide (MemAllocMode b = Classic ∨ MemAllocMode b = CopyIn)
       then (non_empty_slots (Ptrs b)).*2 else []) ∧
    host_frees_of evs = [] ∧
    (MemAllocMode b = UseHostPtr →
     evs = [EvCuMemHostUnregister (HostPtr b) (cuMemHostUnregister l (HostPtr b))] ∧
     Result = CHK (cuMemHostUnregister l (HostPtr b))) ∧
    (MemAllocMode b = AllocHostPtr →
     evs = [EvCuMemFreeHost (HostPtr b) (cuMemFreeHost l (HostPtr b))] ∧
     Result = CHK (cuMemFreeHost l (HostPtr b))).
Proof.
  intros [HP _] Hpar.
  destruct (MemAllocMode b) eqn:Hmode.
  - destruct (clear_device_eq cuMemFree cuMemHostUnregister cuMemFreeHost CHK b l)
      as (R & evs & Hrun & Hf & _ & Hh); [done | done | by left; rewrite Hmode |].
    exists R, evs. rewrite Hrun. split; [done|].
    rewrite bool_decide_eq_true_2 by (by left).
    by rewrite non_empty_slots_snd.
  - eexists _, _. split.
    + unfold clear, isSubBuffer. unfold_M. simpl.
      rewrite bool_decide_eq_false_2 by (intros Hc; by apply Hc).
      rewrite Hmode. reflexivity.
    + rewrite bool_decide_eq_false_2 by (by intros [|]). done.
  - destruct (clear_device_eq cuMemFree cuMemHostUnregister cuMemFreeHost CHK b l)
      as (R & evs & Hrun & Hf & _ & Hh); [done | done | by right; rewrite Hmode |].
    exists R, evs. rewrite Hrun. split; [done|].
    rewrite bool_decide_eq_true_2 by (by right).
    by rewrite non_empty_slots_snd.
  - eexists _, _. split.
    + unfold clear, isSubBuffer. unfold_M. simpl.
      rewrite bool_decide_eq_false_2 by (intros Hc; by apply Hc).
      rewrite Hmode. reflexivity.
    + rewrite bool_decide_eq_false_2 by (by intros [|]). done.
Qed.

(** X9.  [clear()] leaves the freed slots as they are: it does not write
    null into them.  Calling it a second time on a buffer without parent in
    [Classic] or [CopyIn] mode therefore hands every non-empty slot to
    [cuMemFree] a second time. *)
Theorem X9_clear_twice_frees_twice cuMemFree cuMemHostUnregister cuMemFreeHost CHK
    (b : ur_buffer_) (l : list event) :
  buffer_wf b → Parent b = nullptr →
  MemAllocMode b = Classic ∨ MemAllocMode b = CopyIn →
  ∃ Result evs,
    (clear cuMemFree cuMemHostUnregister cuMemFreeHost CHK ;;
     clear cuMemFree cuMemHostUnregister cuMemFreeHost CHK) {| this := b; log := l |}
    = Some (Result, {| this := b; log := l ++ evs |}) ∧
    (frees_of evs).*1
    = (non_empty_slots (Ptrs b)).*2 ++ (non_empty_slots (Ptrs b)).*2.
Proof.
  intros [HP _] Hpar Hmode.
  destruct (clear_device_eq cuMemFree cuMemHostUnregister cuMemFreeHost CHK b l)
    as (R1 & evs1 & Hrun1 & Hf1 & _); [done..|].
  destruct (clear_device_eq cuMemFree cuMemHostUnregister cuMemFreeHost CHK b
              (l ++ evs1))
    as (R2 & evs2 & Hrun2 & Hf2 & _); [done..|].
  exists R2, (evs1 ++ evs2). split.
  - unfold mbind at 1, M_bind at 1. rewrite Hrun1, Hrun2. by rewrite app_assoc.
  - unfold frees_of in *. rewrite omap_app, fmap_app, Hf1, Hf2.
    by rewrite non_empty_slots_snd.
Qed.

Lemma filter_replicate_null (n : nat) :
  filter (λ p : Z, p ≠ 0%Z) (replicate n 0%Z) = [].
Proof.
  induction n as [|n IH]; [done|]. simpl.
  by rewrite filter_cons_False by (intros Hc; by apply Hc).
Qed.

(** X10.  Device storage is allocated lazily, so a buffer that is cleared
    before any device used it has nothing to release: on an object fresh
    from the constructor, with any number of devices, [clear()] in [Classic]
    or [CopyIn] mode returns success and calls nothing. *)
Theorem X10_clear_fresh_buffer cuMemFree cuMemHostUnregister cuMemFreeHost CHK
    (Ctx : ur_context_handle_t_) (Flags : Z) (HostPtr0 : ptr) (Size0 : size_t)
    (l : list event) :
  clear cuMemFree cuMemHostUnregister cuMemFreeHost CHK
    (new_ur_buffer_ Ctx nullptr Flags Classic HostPtr0 Size0 l)
  = Some (UR_RESULT_SUCCESS, new_ur_buffer_ Ctx nullptr Flags Classic HostPtr0 Size0 l) ∧
  clear cuMemFree cuMemHostUnregister cuMemFreeHost CHK
    (new_ur_buffer_ Ctx nullptr Flags CopyIn HostPtr0 Size0 l)
  = Some (UR_RESULT_SUCCESS, new_ur_buffer_ Ctx nullptr Flags CopyIn HostPtr0 Size0 l).
Proof.
  assert (∀ Mode, Mode = Classic ∨ Mode = CopyIn →
    clear cuMemFree cuMemHostUnregister cuMemFreeHost CHK
      (new_ur_buffer_ Ctx nullptr Flags Mode HostPtr0 Size0 l)
    = Some (UR_RESULT_SUCCESS, new_ur_buffer_ Ctx nullptr Flags Mode HostPtr0 Size0 l))
    as Hboth.
  { intros Mode HMode.
    set (s := new_ur_buffer_ Ctx nullptr Flags Mode HostPtr0 Size0 l).
    destruct (clear_loop_eq cuMemFree CHK (NumDevices Ctx) 0 UR_RESULT_SUCCESS s)
      as (R & evs & Hrun & Hf & _ & HR & Hl & _).
    { subst s. simpl. by rewrite length_replicate. }
    subst s. simpl in Hf. rewrite drop_0, filter_replicate_null in Hf.
    apply fmap_nil_inv in Hf. rewrite Hf in Hl, HR. simpl in Hl, HR.
    apply nil_length_inv in Hl. subst evs R.
    unfold clear. unfold_M. simpl. rewrite app_nil_r in Hrun.
    destruct HMode as [-> | ->]; exact Hrun. }
  split; apply Hboth; [by left | by right].
Qed.

(** ** More on the last writer *)

(** X11.  The writer's device is looked up by index only.  When the new
    event comes from a device whose index is not below the context's number
    of devices, the event is still retained and tracked, and every device of
    the context ends up marked as not up to date. *)
Theorem X11_foreign_writer_clears_all_flags getDeviceIndex
    (b : ur_buffer_) (l : list event) (NewEvent : ptr) :
  buffer_wf b → NewEvent ≠ nullptr →
  NumDevices (Context (base b)) ≤ getDeviceIndex NewEvent →
  ∃ s', setLastEventWritingToMemObj getDeviceIndex NewEvent {| this := b; log := l |}
        = Some (tt, s') ∧
        HaveMigratedToDeviceSinceLastWrite (this s')
        = replicate (NumDevices (Context (base b))) false ∧
        LastEventWritingToMemObj (this s') = NewEvent ∧
        occurrences (EvEventRetain NewEvent) (log s')
        = S (occurrences (EvEventRetain NewEvent) l).
Proof.
  intros [_ HF] Hne Hidx.
  destruct (setLastEvent_eq getDeviceIndex b l NewEvent Hne HF)
    as (v' & Hrun & Hl & Hv).
  eexists. split; [exact Hrun|]. simpl. split; [|split; [done|]].
  - apply list_eq. intros i.
    destruct (decide (i < NumDevices (Context (base b)))) as [Hi|Hi].
    + rewrite Hv by done. rewrite lookup_replicate_2 by done.
      by rewrite bool_decide_eq_false_2 by lia.
    + rewrite !lookup_ge_None_2; [done | rewrite length_replicate; lia | lia].
  - rewrite occurrences_app.
    destruct (bool_decide _).
    + rewrite occurrences_app, !occurrences_cons, !occurrences_nil.
      rewrite decide_False by done. rewrite decide_True by done. lia.
    + rewrite !occurrences_cons, !occurrences_nil.
      rewrite decide_True by done. lia.
Qed.

(** X12.  The last writer wins.  Recording a writer [E1] and then a writer
    [E2] leaves the object exactly as recording [E2] alone does: [E2] is
    tracked and the flags are those of [E2]'s device.  The log shows [E1]
    retained and then released again before [E2] is retained. *)
Theorem X12_last_writer_wins getDeviceIndex (b : ur_buffer_) (l : list event)
    (E1 E2 : ptr) :
  buffer_wf b → E1 ≠ nullptr → E2 ≠ nullptr →
  ∃ s2 s2',
    (setLastEventWritingToMemObj getDeviceIndex E1 ;;
     setLastEventWritingToMemObj getDeviceIndex E2) {| this := b; log := l |}
    = Some (tt, s2) ∧
    setLastEventWritingToMemObj getDeviceIndex E2 {| this := b; log := l |}
    = Some (tt, s2') ∧
    this s2 = this s2' ∧
    LastEventWritingToMemObj (this s2) = E2 ∧
    ∃ l1, log s2 = l1 ++ [EvEventRetain E1; EvEventRelease E1; EvEventRetain E2].
Proof.
  intros [_ HF] H1 H2.
  destruct (setLastEvent_eq getDeviceIndex b l E1 H1 HF) as (v1 & Hrun1 & Hl1 & Hv1).
  destruct (setLastEvent_eq getDeviceIndex b l E2 H2 HF) as (v2' & Hrun2' & Hl2' & Hv2').
  destruct (setLastEvent_eq getDeviceIndex
              (set_HaveMigrated v1 (set_LastEventWritingToMemObj E1 b))
              ((if bool_decide (LastEventWritingToMemObj b ≠ nullptr)
                then l ++ [EvEventRelease (LastEventWritingToMemObj b)] else l)
               ++ [EvEventRetain E1]) E2 H2)
    as (v2 & Hrun2 & Hl2 & Hv2); [done|].
  simpl in Hl2, Hv2.
  assert (v2 = v2') as ->.
  { apply list_eq. intros i.
    destruct (decide (i < NumDevices (Context (base b)))) as [Hi|Hi].
    - by rewrite Hv2, Hv2'.
    - rewrite !lookup_ge_None_2; [done | lia | lia]. }
  eexists _, _. split.
  { unfold mbind at 1, M_bind at 1. rewrite Hrun1. exact Hrun2. }
  split; [exact Hrun2'|]. split; [done|]. split; [done|].
  simpl. rewrite (bool_decide_eq_true_2 _ H1).
  exists (if bool_decide (LastEventWritingToMemObj b ≠ nullptr)
          then l ++ [EvEventRelease (LastEventWritingToMemObj b)] else l).
  by rewrite <- !app_assoc.
Qed.

(** X13.  Recording a writer does not disturb a mapping, and releasing the
    mapping does not disturb the writer.  If [mapToPtr] handed out a pointer
    and a writer is recorded afterwards, the accessors still show the
    mapping and a second [mapToPtr] still fails; whenever [unmap] then
    returns, the mapping is gone and the tracked event and the flags are as
    the recording set them.  On a buffer without host pointer [unmap] does
    return, and what it frees is the pointer [malloc] handed out for this
    mapping. *)
Theorem X13_mapping_and_writer_independent malloc getDeviceIndex (s s1 s2 : state)
    (Size0 Offset : size_t) (Flags : ur_map_flags_t) (p NewEvent q : ptr) :
  mapToPtr malloc Size0 Offset Flags s = Some (p, s1) →
  p ≠ nullptr →
  setLastEventWritingToMemObj getDeviceIndex NewEvent s1 = Some (tt, s2) →
  getMapPtr (this s2) = p ∧ getMapSize (this s2) = Size0 ∧
  getMapOffset (this s2) = Offset ∧ getMapFlags s2 = Some (Flags, s2) ∧
  (∀ malloc' Size' Offset' Flags', mapToPtr malloc' Size' Offset' Flags' s2 = None) ∧
  (∀ s3, unmap q s2 = Some (tt, s3) →
         getMapPtr (this s3) = nullptr ∧
         LastEventWritingToMemObj (this s3) = NewEvent ∧
         HaveMigratedToDeviceSinceLastWrite (this s3)
         = HaveMigratedToDeviceSinceLastWrite (this s2)) ∧
  (HostPtr (this s) = nullptr →
   (getSize (this s), p) ∈ mallocs_of (log s2) ∧
   ∃ s3, unmap q s2 = Some (tt, s3) ∧ log s3 = log s2 ++ [EvFree p]).
Proof.
  intros Hmap Hp Hset.
  apply mapToPtr_inv in Hmap as (_ & _ & H1 & Hl1).
  pose proof (setLastEvent_inv _ _ _ _ Hset) as [v H2].
  apply setLastEvent_inv_log in Hset as (_ & _ & evs & Hl2 & _).
  assert (MapPtr (this s2) = p) as Hmp by (by rewrite H2, H1).
  split; [done|]. split; [by rewrite H2, H1|]. split; [by rewrite H2, H1|].
  split; [|split; [|split]].
  - unfold getMapFlags. unfold_M. rewrite Hmp.
    rewrite (bool_decide_eq_true_2 _ Hp). by rewrite H2, H1.
  - intros. apply mapToPtr_fails_when_mapped. by rewrite Hmp.
  - intros s3 Hun. apply unmap_inv in Hun as (_ & -> & _). by rewrite H2.
  - intros Hh. rewrite Hh in Hl1. simpl in Hl1. split.
    + rewrite Hl2, Hl1. unfold mallocs_of, getSize. rewrite !omap_app. simpl.
      rewrite !elem_of_app, elem_of_cons. tauto.
    + destruct s2 as [b2 l2]. simpl in *.
      rewrite unmap_eq by (by rewrite Hmp). eexists. split; [reflexivity|].
      rewrite Hmp. rewrite bool_decide_eq_true_2; [done|].
      rewrite H2, H1. simpl. by rewrite Hh.
Qed.

(** ** Native pointers and destruction *)

(** X14.  Construction allocates nothing on any device: on an object fresh
    from the constructor, [getNativePtr] of every device of the context
    returns the null allocation and changes nothing; a null device handle
    fails the assertion. *)
Theorem X14_fresh_buffer_has_no_native_ptr getIndex
    (Ctx : ur_context_handle_t_) (Parent0 : ptr) (Flags : Z) (Mode : AllocMode)
    (HostPtr0 : ptr) (Size0 : size_t) (l : list event) (hDevice : ptr) :
  hDevice ≠ nullptr → getIndex hDevice < NumDevices Ctx →
  getNativePtr getIndex hDevice
    (new_ur_buffer_ Ctx Parent0 Flags Mode HostPtr0 Size0 l)
  = Some (0%Z, new_ur_buffer_ Ctx Parent0 Flags Mode HostPtr0 Size0 l) ∧
  getNativePtr getIndex nullptr
    (new_ur_buffer_ Ctx Parent0 Flags Mode HostPtr0 Size0 l) = None.
Proof.
  intros Hd Hi. split.
  - unfold getNativePtr. unfold_M. rewrite (bool_decide_eq_true_2 _ Hd).
    simpl. by rewrite lookup_replicate_2.
  - unfold getNativePtr. unfold_M. done.
Qed.

(** X15.  The destructor does not release a mapping.  If a buffer without
    host pointer is destroyed while a staging mapping is active, the
    destructor returns and the staging allocation that [malloc] handed out
    is never passed to [free]. *)
Theorem X15_destructor_keeps_staging_mapping malloc (b : ur_buffer_) (l : list event)
    (Size0 Offset : size_t) (Flags : ur_map_flags_t) :
  MapPtr b = nullptr → HostPtr b = nullptr → malloc l (getSize b) ≠ nullptr →
  ∃ p s', (p ← mapToPtr malloc Size0 Offset Flags; (destroy_ur_buffer_ ;; mret p))
            {| this := b; log := l |} = Some (p, s') ∧
          p = malloc l (getSize b) ∧
          getMapPtr (this s') = p ∧
          mallocs_of (log s') = mallocs_of l ++ [(getSize b, p)] ∧
          host_frees_of (log s') = host_frees_of l.
Proof.
  intros Hp Hh Hm. unfold getSize in *.
  unfold mbind at 1, M_bind at 1. rewrite mapToPtr_eq by done.
  unfold mbind at 1, M_bind at 1. rewrite destroy_eq.
  unfold mapped_address. rewrite Hh. simpl.
  eexists _, _. split; [reflexivity|]. simpl.
  split; [done|]. split; [done|].
  unfold mallocs_of, host_frees_of.
  destruct (isSubBuffer _), (bool_decide _);
    rewrite ?omap_app; simpl; by rewrite ?app_nil_r.
Qed.

(** ** Images *)

(** X16.  [clear()] of an image built by the surface constructor, over a
    context with a device: it makes device 0 current, destroys the surface
    object if it is not null and then the array if it is not null, the array
    whatever the surface destroy answered, and calls nothing else.  Its
    result is the checked status of the last destroy it made (a failed
    surface destroy is overwritten by the array destroy), success if it made
    none. *)
Theorem X16_image_clear_surface cuSurfObjectDestroy cuArrayDestroy CHK
    (Ctx : ur_context_handle_t_) (Array : ptr) (Surf Flags ImageType : Z)
    (HostPtr0 : ptr) (l0 l : list image_event) :
  0 < NumDevices Ctx →
  ∃ Result rs ra,
    image_clear cuSurfObjectDestroy cuArrayDestroy CHK
      (new_ur_image_surface Ctx Array Surf Flags ImageType HostPtr0 l0).1 l
    = Some (Result,
            l ++ [ImShared (EvScopedDevice 0)]
              ++ (if bool_decide (Surf ≠ 0%Z)
                  then [ImCuSurfObjectDestroy Surf rs] else [])
              ++ (if bool_decide (Array ≠ 0%Z)
                  then [ImCuArrayDestroy Array ra] else [])) ∧
    Result = (if bool_decide (Array ≠ 0%Z) then CHK ra
              else if bool_decide (Surf ≠ 0%Z) then CHK rs
              else UR_RESULT_SUCCESS).
Proof.
  intros HN.
  set (rs := cuSurfObjectDestroy (l ++ [ImShared (EvScopedDevice 0)]) Surf).
  set (ra := cuArrayDestroy
               (if bool_decide (Surf ≠ 0%Z)
                then (l ++ [ImShared (EvScopedDevice 0)])
                     ++ [ImCuSurfObjectDestroy Surf rs]
                else l ++ [ImShared (EvScopedDevice 0)]) Array).
  eexists _, rs, ra. split; [|reflexivity].
  unfold image_clear, new_ur_image_surface. simpl.
  rewrite decide_True by done. subst rs ra.
  destruct (bool_decide (Surf ≠ 0%Z)), (bool_decide (Array ≠ 0%Z)); simpl;
    rewrite <- ?app_assoc; simpl; reflexivity.
Qed.

(** X17.  [clear()] of an image reads the union through [SurfaceMem] and
    does not look at [MemType].  For an image built by the sampled-image
    constructor (a texture) or by the unsampled-image constructor it
    therefore does exactly what it does for a surface image with the same
    array and the same handle bits: a non-null texture object is handed to
    [cuSurfObjectDestroy], and the sampler is left alone. *)
Theorem X17_image_clear_ignores_kind cuSurfObjectDestroy cuArrayDestroy CHK
    (Ctx : ur_context_handle_t_) (Array : ptr) (Tex : Z) (Sampler : ptr)
    (Flags ImageType : Z) (HostPtr0 : ptr) (l0 l : list image_event) :
  0 < NumDevices Ctx → Tex ≠ 0%Z →
  image_clear cuSurfObjectDestroy cuArrayDestroy CHK
    (new_ur_image_sampled Ctx Array Tex Sampler ImageType l0).1 l
  = image_clear cuSurfObjectDestroy cuArrayDestroy CHK
      (new_ur_image_surface Ctx Array Tex Flags ImageType HostPtr0 l0).1 l ∧
  image_clear cuSurfObjectDestroy cuArrayDestroy CHK
    (new_ur_image_unsampled Ctx Array Tex ImageType l0).1 l
  = image_clear cuSurfObjectDestroy cuArrayDestroy CHK
      (new_ur_image_surface Ctx Array Tex Flags ImageType HostPtr0 l0).1 l ∧
  MemType (new_ur_image_sampled Ctx Array Tex Sampler ImageType l0).1 = Texture ∧
  ∃ Result l',
    image_clear cuSurfObjectDestroy cuArrayDestroy CHK
      (new_ur_image_sampled Ctx Array Tex Sampler ImageType l0).1 l
    = Some (Result, l') ∧
    ImCuSurfObjectDestroy Tex
      (cuSurfObjectDestroy (l ++ [ImShared (EvScopedDevice 0)]) Tex) ∈ l'.
Proof.
  intros HN HT. split; [reflexivity|]. split; [reflexivity|]. split; [reflexivity|].
  unfold image_clear, new_ur_image_sampled. simpl.
  rewrite decide_True by done. rewrite (bool_decide_eq_true_2 _ HT).
  destruct (bool_decide (Array ≠ 0%Z)); eexists _, _; (split; [reflexivity|]);
    rewrite !elem_of_app, !elem_of_cons; tauto.
Qed.

(** ** The further statements at sample inputs *)

Lemma X1_retain_release_round_trip_witness :
  (0 ≤ RefCount Sample.released_handle < 2 ^ 32)%Z ∧
  release_n 3 (retain_n 3 Sample.released_handle) = Sample.released_handle ∧
  retain_n 3 (release_n 3 Sample.released_handle) = Sample.released_handle.
Proof.
  assert (0 ≤ RefCount Sample.released_handle < 2 ^ 32)%Z as Hr by (simpl; lia).
  split; [exact Hr|].
  destruct (X1_retain_release_round_trip 3 Sample.released_handle Hr)
    as (H1 & H2 & _).
  split; [exact H1 | exact H2].
Defined.

Lemma X2_mapping_is_exclusive_witness :
  mapToPtr Sample.malloc 256 16 UR_MAP_FLAG_READ Sample.classic_buffer
  = Some (69632%Z, Sample.mapped_buffer) ∧
  (69632 : ptr) ≠ nullptr ∧
  getMapFlags Sample.mapped_buffer = Some (UR_MAP_FLAG_READ, Sample.mapped_buffer) ∧
  mapToPtr Sample.malloc 8 0 UR_MAP_FLAG_WRITE Sample.mapped_buffer = None.
Proof.
  assert (mapToPtr Sample.malloc 256 16 UR_MAP_FLAG_READ Sample.classic_buffer
          = Some (69632%Z, Sample.mapped_buffer)) as Hrun by reflexivity.
  assert ((69632 : ptr) ≠ nullptr) as Hp by discriminate.
  split; [exact Hrun|]. split; [exact Hp|].
  destruct (X2_mapping_is_exclusive Sample.malloc Sample.classic_buffer
              Sample.mapped_buffer 256 16 UR_MAP_FLAG_READ 69632 Hrun Hp)
    as (_ & _ & _ & Hflags & Hfail).
  split; [exact Hflags | apply Hfail].
Defined.

Lemma X3_unmap_needs_mapping_witness :
  unmap 69632 Sample.mapped_buffer = Some (tt, Sample.unmapped_buffer) ∧
  unmap 69632 Sample.unmapped_buffer = None ∧
  getMapFlags Sample.unmapped_buffer = None.
Proof.
  assert (unmap 69632 Sample.mapped_buffer = Some (tt, Sample.unmapped_buffer))
    as Hrun by reflexivity.
  split; [exact Hrun|].
  destruct (X3_unmap_needs_mapping Sample.malloc) as (_ & _ & Hafter).
  destruct (Hafter Sample.mapped_buffer 69632%Z Sample.unmapped_buffer Hrun)
    as (Hunmap & Hflags & _).
  split; [apply Hunmap | exact Hflags].
Defined.

Lemma X4_staging_allocation_fails_witness :
  MapPtr (this Sample.classic_buffer) = nullptr ∧
  HostPtr (this Sample.classic_buffer) = nullptr ∧
  Scenario.no_memory (log Sample.classic_buffer) (getSize (this Sample.classic_buffer))
  = nullptr ∧
  ∃ s1, mapToPtr Scenario.no_memory 256 16 UR_MAP_FLAG_READ Sample.classic_buffer
        = Some (nullptr, s1) ∧
        getMapSize (this s1) = 256%Z ∧ getMapOffset (this s1) = 16%Z ∧
        unmap nullptr s1 = None.
Proof.
  split; [reflexivity|]. split; [reflexivity|]. split; [reflexivity|].
  destruct (X4_staging_allocation_fails Scenario.no_memory (this Sample.classic_buffer)
              (log Sample.classic_buffer) 256 16 UR_MAP_FLAG_READ
              eq_refl eq_refl eq_refl)
    as (s1 & Hrun & _ & _ & Hsz & Hoff & Hunmap & _).
  exists s1. split; [exact Hrun|]. split; [exact Hsz|]. split; [exact Hoff|].
  apply Hunmap.
Defined.

Lemma X5_staging_accounted_witness :
  HostPtr (this Scenario.fresh_buffer) = nullptr ∧
  staging_accounted Scenario.fresh_buffer ∧
  run_calls Scenario.world Scenario.calls Scenario.fresh_buffer
  = Some (tt, Scenario.after_calls) ∧
  staging_accounted Scenario.after_calls.
Proof.
  assert (run_calls Scenario.world Scenario.calls Scenario.fresh_buffer
          = Some (tt, Scenario.after_calls)) as Hrun by reflexivity.
  destruct (X5_staging_accounted Scenario.world Scenario.calls)
    as (Hnew & _ & Hkeep).
  assert (staging_accounted Scenario.fresh_buffer) as Hacc
    by apply (Hnew Sample.ctx2 nullptr 0%Z Classic 1024%Z).
  split; [reflexivity|]. split; [exact Hacc|]. split; [exact Hrun|].
  exact (Hkeep Scenario.fresh_buffer Scenario.after_calls eq_refl Hacc Hrun).
Defined.

Lemma X6_host_backed_never_allocates_witness :
  HostPtr (this Sample.host_buffer) ≠ nullptr ∧
  run_calls Scenario.world Scenario.host_calls Sample.host_buffer
  = Some (tt, Scenario.host_after_calls) ∧
  mallocs_of (log Scenario.host_after_calls) = mallocs_of (log Sample.host_buffer).
Proof.
  assert (HostPtr (this Sample.host_buffer) ≠ nullptr) as Hh by discriminate.
  assert (run_calls Scenario.world Scenario.host_calls Sample.host_buffer
          = Some (tt, Scenario.host_after_calls)) as Hrun by reflexivity.
  split; [exact Hh|]. split; [exact Hrun|].
  exact (X6_host_backed_never_allocates Scenario.world Scenario.host_calls
           Sample.host_buffer Scenario.host_after_calls Hh Hrun).
Defined.

Lemma X7_calls_keep_configuration_witness :
  run_calls Scenario.world Scenario.calls Scenario.fresh_buffer
  = Some (tt, Scenario.after_calls) ∧
  Ptrs (this Scenario.after_calls) = Ptrs (this Scenario.fresh_buffer) ∧
  Size (this Scenario.after_calls) = Size (this Scenario.fresh_buffer).
Proof.
  assert (run_calls Scenario.world Scenario.calls Scenario.fresh_buffer
          = Some (tt, Scenario.after_calls)) as Hrun by reflexivity.
  split; [exact Hrun|].
  destruct (X7_calls_keep_configuration Scenario.world Scenario.calls
              Scenario.fresh_buffer Scenario.after_calls Hrun)
    as (_ & _ & HP & _ & HS & _).
  split; [exact HP | exact HS].
Defined.

Lemma X8_clear_by_mode_witness :
  buffer_wf (this Sample.host_buffer) ∧
  Parent (this Sample.host_buffer) = nullptr ∧
  ∃ Result evs,
    clear Sample.cuMemFree Sample.cuMemHostUnregister Sample.cuMemFreeHost
      Sample.UR_CHECK_ERROR Sample.host_buffer
    = Some (Result, {| this := this Sample.host_buffer;
                       log := log Sample.host_buffer ++ evs |}) ∧
    evs = [EvCuMemHostUnregister Sample.H CUDA_SUCCESS] ∧
    (frees_of evs).*1 = [].
Proof.
  assert (buffer_wf (this Sample.host_buffer)) as Hwf by (split; reflexivity).
  split; [exact Hwf|]. split; [reflexivity|].
  destruct (X8_clear_by_mode Sample.cuMemFree Sample.cuMemHostUnregister
              Sample.cuMemFreeHost Sample.UR_CHECK_ERROR
              (this Sample.host_buffer) (log Sample.host_buffer) Hwf eq_refl)
    as (R & evs & Hrun & Hf & _ & Hhost & _).
  exists R, evs. split; [exact Hrun|].
  split; [exact (proj1 (Hhost eq_refl)) | exact Hf].
Defined.

Lemma X9_clear_twice_frees_twice_witness :
  buffer_wf (this Sample.allocated_buffer) ∧
  Parent (this Sample.allocated_buffer) = nullptr ∧
  MemAllocMode (this Sample.allocated_buffer) = Classic ∧
  ∃ Result evs,
    (clear Sample.cuMemFree Sample.cuMemHostUnregister Sample.cuMemFreeHost
       Sample.UR_CHECK_ERROR ;;
     clear Sample.cuMemFree Sample.cuMemHostUnregister Sample.cuMemFreeHost
       Sample.UR_CHECK_ERROR) Sample.allocated_buffer
    = Some (Result, {| this := this Sample.allocated_buffer; log := [] ++ evs |}) ∧
    (frees_of evs).*1 = [100; 200; 100; 200]%Z.
Proof.
  assert (buffer_wf (this Sample.allocated_buffer)) as Hwf by (split; reflexivity).
  split; [exact Hwf|]. split; [reflexivity|]. split; [reflexivity|].
  destruct (X9_clear_twice_frees_twice Sample.cuMemFree Sample.cuMemHostUnregister
              Sample.cuMemFreeHost Sample.UR_CHECK_ERROR
              (this Sample.allocated_buffer) [] Hwf eq_refl (or_introl eq_refl))
    as (R & evs & Hrun & Hf).
  exists R, evs. split; [exact Hrun | exact Hf].
Defined.

Lemma X11_foreign_writer_clears_all_flags_witness :
  buffer_wf (this Sample.classic_buffer) ∧
  (9 : ptr) ≠ nullptr ∧
  NumDevices (Context (base (this Sample.classic_buffer))) ≤ Scenario.foreign_index 9 ∧
  ∃ s', setLastEventWritingToMemObj Scenario.foreign_index 9 Sample.classic_buffer
        = Some (tt, s') ∧
        HaveMigratedToDeviceSinceLastWrite (this s') = [false; false] ∧
        LastEventWritingToMemObj (this s') = 9%Z.
Proof.
  assert (buffer_wf (this Sample.classic_buffer)) as Hwf by (split; reflexivity).
  assert ((9 : ptr) ≠ nullptr) as Hne by discriminate.
  assert (NumDevices (Context (base (this Sample.classic_buffer)))
          ≤ Scenario.foreign_index 9) as Hidx by (vm_compute; lia).
  split; [exact Hwf|]. split; [exact Hne|]. split; [exact Hidx|].
  destruct (X11_foreign_writer_clears_all_flags Scenario.foreign_index
              (this Sample.classic_buffer) (log Sample.classic_buffer) 9 Hwf Hne Hidx)
    as (s' & Hrun & Hflags & Hlast & _).
  exists s'. split; [exact Hrun|]. split; [exact Hflags | exact Hlast].
Defined.

Lemma X12_last_writer_wins_witness :
  buffer_wf (this Sample.classic_buffer) ∧ (7 : ptr) ≠ nullptr ∧ (8 : ptr) ≠ nullptr ∧
  ∃ s2 s2',
    (setLastEventWritingToMemObj Sample.getDeviceIndex 7 ;;
     setLastEventWritingToMemObj Sample.getDeviceIndex 8) Sample.classic_buffer
    = Some (tt, s2) ∧
    setLastEventWritingToMemObj Sample.getDeviceIndex 8 Sample.classic_buffer
    = Some (tt, s2') ∧
    this s2 = this s2'.
Proof.
  assert (buffer_wf (this Sample.classic_buffer)) as Hwf by (split; reflexivity).
  assert ((7 : ptr) ≠ nullptr) as H7 by discriminate.
  assert ((8 : ptr) ≠ nullptr) as H8 by discriminate.
  split; [exact Hwf|]. split; [exact H7|]. split; [exact H8|].
  destruct (X12_last_writer_wins Sample.getDeviceIndex (this Sample.classic_buffer)
              (log Sample.classic_buffer) 7 8 Hwf H7 H8)
    as (s2 & s2' & Hrun & Hrun' & Heq & _).
  exists s2, s2'. split; [exact Hrun|]. split; [exact Hrun' | exact Heq].
Defined.

Lemma X13_mapping_and_writer_independent_witness :
  mapToPtr Sample.malloc 256 16 UR_MAP_FLAG_READ Sample.classic_buffer
  = Some (69632%Z, Sample.mapped_buffer) ∧
  (69632 : ptr) ≠ nullptr ∧
  HostPtr (this Sample.classic_buffer) = nullptr ∧
  ∃ s2, setLastEventWritingToMemObj Sample.getDeviceIndex 8 Sample.mapped_buffer
        = Some (tt, s2) ∧
        getMapPtr (this s2) = 69632%Z ∧
        getMapFlags s2 = Some (UR_MAP_FLAG_READ, s2) ∧
        ∃ s3, unmap 69632 s2 = Some (tt, s3) ∧ log s3 = log s2 ++ [EvFree 69632].
Proof.
  assert (mapToPtr Sample.malloc 256 16 UR_MAP_FLAG_READ Sample.classic_buffer
          = Some (69632%Z, Sample.mapped_buffer)) as Hmap by reflexivity.
  assert ((69632 : ptr) ≠ nullptr) as Hp by discriminate.
  split; [exact Hmap|]. split; [exact Hp|]. split; [reflexivity|].
  eexists. split; [reflexivity|].
  destruct (X13_mapping_and_writer_independent Sample.malloc Sample.getDeviceIndex
              Sample.classic_buffer Sample.mapped_buffer _ 256 16 UR_MAP_FLAG_READ
              69632 8 69632 Hmap Hp eq_refl)
    as (Hptr & _ & _ & Hflags & _ & _ & Hstaging).
  split; [exact Hptr|]. split; [exact Hflags|].
  exact (proj2 (Hstaging eq_refl)).
Defined.

Lemma X14_fresh_buffer_has_no_native_ptr_witness :
  (22 : ptr) ≠ nullptr ∧ Scenario.getIndex 22 < NumDevices Sample.ctx2 ∧
  getNativePtr Scenario.getIndex 22 Sample.classic_buffer
  = Some (0%Z, Sample.classic_buffer).
Proof.
  assert ((22 : ptr) ≠ nullptr) as Hd by discriminate.
  assert (Scenario.getIndex 22 < NumDevices Sample.ctx2) as Hi by (vm_compute; lia).
  split; [exact Hd|]. split; [exact Hi|].
  exact (proj1 (X14_fresh_buffer_has_no_native_ptr Scenario.getIndex Sample.ctx2
                  nullptr 0 Classic nullptr 1024 [] 22 Hd Hi)).
Defined.

Lemma X15_destructor_keeps_staging_mapping_witness :
  MapPtr (this Sample.classic_buffer) = nullptr ∧
  HostPtr (this Sample.classic_buffer) = nullptr ∧
  Sample.malloc (log Sample.classic_buffer) (getSize (this Sample.classic_buffer))
  ≠ nullptr ∧
  ∃ p s', (p ← mapToPtr Sample.malloc 256 16 UR_MAP_FLAG_READ;
           (destroy_ur_buffer_ ;; mret p)) Sample.classic_buffer = Some (p, s') ∧
          mallocs_of (log s') = [(1024, p)]%Z ∧ host_frees_of (log s') = [].
Proof.
  assert (Sample.malloc (log Sample.classic_buffer)
            (getSize (this Sample.classic_buffer)) ≠ nullptr) as Hm
    by (vm_compute; discriminate).
  split; [reflexivity|]. split; [reflexivity|]. split; [exact Hm|].
  destruct (X15_destructor_keeps_staging_mapping Sample.malloc
              (this Sample.classic_buffer) (log Sample.classic_buffer)
              256 16 UR_MAP_FLAG_READ eq_refl eq_refl Hm)
    as (p & s' & Hrun & _ & _ & Hmal & Hfree).
  exists p, s'. split; [exact Hrun|]. split; [exact Hmal | exact Hfree].
Defined.

Lemma X16_image_clear_surface_witness :
  0 < NumDevices Sample.ctx2 ∧
  ∃ Result rs ra,
    image_clear Scenario.cuSurfObjectDestroy Scenario.cuArrayDestroy
      Sample.UR_CHECK_ERROR (new_ur_image_surface Sample.ctx2 41 31 0 0 0 []).1 []
    = Some (Result,
            [ImShared (EvScopedDevice 0); ImCuSurfObjectDestroy 31 rs;
             ImCuArrayDestroy 41 ra]) ∧
    Result = Sample.UR_CHECK_ERROR ra.
Proof.
  assert (0 < NumDevices Sample.ctx2) as HN by (simpl; lia).
  split; [exact HN|].
  destruct (X16_image_clear_surface Scenario.cuSurfObjectDestroy
              Scenario.cuArrayDestroy Sample.UR_CHECK_ERROR
              Sample.ctx2 41 31 0 0 0 [] [] HN)
    as (R & rs & ra & Hrun & HR).
  exists R, rs, ra. split; [exact Hrun | exact HR].
Defined.

Lemma X17_image_clear_ignores_kind_witness :
  0 < NumDevices Sample.ctx2 ∧ (33 : Z) ≠ 0%Z ∧
  ∃ Result l',
    image_clear Scenario.cuSurfObjectDestroy Scenario.cuArrayDestroy
      Sample.UR_CHECK_ERROR (new_ur_image_sampled Sample.ctx2 41 33 5 0 []).1 []
    = Some (Result, l') ∧
    ImCuSurfObjectDestroy 33 CUDA_SUCCESS ∈ l'.
Proof.
  assert (0 < NumDevices Sample.ctx2) as HN by (simpl; lia).
  assert ((33 : Z) ≠ 0%Z) as HT by discriminate.
  split; [exact HN|]. split; [exact HT|].
  destruct (X17_image_clear_ignores_kind Scenario.cuSurfObjectDestroy
              Scenario.cuArrayDestroy Sample.UR_CHECK_ERROR
              Sample.ctx2 41 33 5 0 0 0 [] [] HN HT)
    as (_ & _ & _ & R & l' & Hrun & Hin).
  exists R, l'. split; [exact Hrun | exact Hin].
Defined.

(** ** Event references over a whole life *)

Lemma held_of_others (e : ptr) (evs : list event) :
  Forall (λ x, ∀ y, x ≠ EvEventRetain y ∧ x ≠ EvEventRelease y) evs →
  held e evs = 0%Z.
Proof.
  induction 1 as [|x evs Hx _ IH]; [done|].
  change (x :: evs) with ([x] ++ evs). rewrite held_app, IH.
  unfold held. rewrite !occurrences_cons, !occurrences_nil.
  destruct (Hx e) as [H1 H2]. by rewrite !decide_False.
Qed.

Lemma clear_loop_events cuMemFree CHK (n : nat) :
  ∀ (i : nat) (Result Result' : ur_result_t) (s s' : state),
    clear_loop cuMemFree CHK Result i n s = Some (Result', s') →
    ∃ evs, log s' = log s ++ evs ∧
           Forall (λ x, ∀ y, x ≠ EvEventRetain y ∧ x ≠ EvEventRelease y) evs.
Proof.
  induction n as [|n IH]; intros i R R' s s' Hrun.
  - simpl in Hrun. unfold_M. injection Hrun as <- <-.
    exists []. by rewrite app_nil_r.
  - simpl in Hrun. unfold mbind at 1, M_bind at 1 in Hrun.
    unfold clear_slot, getPtrs in Hrun. unfold_M. simpl in Hrun.
    destruct (Ptrs (this s) !! i) as [p|]; [|done].
    destruct (bool_decide (p ≠ 0%Z)); simpl in Hrun.
    + apply IH in Hrun as (evs & Hlog & Hall). simpl in *.
      exists ([EvScopedDevice i;
               EvCuMemFree p (cuMemFree (log s ++ [EvScopedDevice i]) p)] ++ evs).
      rewrite Hlog, <- !app_assoc. split; [done|].
      apply Forall_app. split; [|done]. by repeat constructor.
    + by apply IH in Hrun.
Qed.

Lemma clear_events cuMemFree cuMemHostUnregister cuMemFreeHost CHK
    (s s' : state) (Result : ur_result_t) :
  clear cuMemFree cuMemHostUnregister cuMemFreeHost CHK s = Some (Result, s') →
  ∃ evs, log s' = log s ++ evs ∧
         Forall (λ x, ∀ y, x ≠ EvEventRetain y ∧ x ≠ EvEventRelease y) evs.
Proof.
  unfold clear. unfold_M. simpl.
  destruct (isSubBuffer (this s)).
  { intros [= <- <-]. exists []. by rewrite app_nil_r. }
  destruct (MemAllocMode (this s)).
  - apply clear_loop_events.
  - intros [= <- <-]. eexists. split; [done|]. by repeat constructor.
  - apply clear_loop_events.
  - intros [= <- <-]. eexists. split; [done|]. by repeat constructor.
Qed.

Lemma setLastEvent_inv_exact getDeviceIndex (s s' : state) (NewEvent : ptr) :
  setLastEventWritingToMemObj getDeviceIndex NewEvent s = Some (tt, s') →
  NewEvent ≠ nullptr ∧
  LastEventWritingToMemObj (this s') = NewEvent ∧
  log s' = (if bool_decide (LastEventWritingToMemObj (this s) ≠ nullptr)
            then log s ++ [EvEventRelease (LastEventWritingToMemObj (this s))]
            else log s) ++ [EvEventRetain NewEvent].
Proof.
  intros Hrun. pose proof (setLastEvent_inv _ _ _ _ Hrun) as [v Hv].
  revert Hrun. unfold setLastEventWritingToMemObj. unfold_M. simpl.
  destruct (bool_decide_reflect (NewEvent ≠ nullptr)) as [Hne|]; [|done].
  split; [done|]. split; [by rewrite Hv|].
  destruct (bool_decide (LastEventWritingToMemObj (this s) ≠ nullptr)); simpl in Hrun;
    apply set_flag_loop_inv in Hrun as (_ & _ & Hlog); by simpl in Hlog.
Qed.

Lemma invoke_writer_tracked (E : collaborators) (m : method) (s s' : state) :
  writer_tracked s → invoke E m s = Some (tt, s') → writer_tracked s'.
Proof.
  intros Htr. destruct m; simpl; intros Hrun e He; specialize (Htr e He).
  - apply bind_ret_inv in Hrun as [p Hrun].
    apply mapToPtr_inv in Hrun as (_ & _ & -> & ->). simpl.
    destruct (bool_decide _); [done|].
    rewrite held_app, Htr, held_of_others; [lia | by repeat constructor].
  - apply unmap_inv in Hrun as (_ & -> & ->). simpl.
    destruct (bool_decide _); [|done].
    rewrite held_app, Htr, held_of_others; [lia | by repeat constructor].
  - apply bind_ret_inv in Hrun as [f Hrun].
    by apply getMapFlags_inv in Hrun as (-> & _).
  - apply bind_ret_inv in Hrun as [p Hrun].
    by apply getNativePtr_inv in Hrun as (-> & _).
  - apply bind_ret_inv in Hrun as [R Hrun].
    pose proof (clear_inv _ _ _ _ _ _ _ Hrun) as (-> & _).
    apply clear_events in Hrun as (evs & -> & Hall).
    rewrite held_app, Htr, held_of_others by done. lia.
  - apply setLastEvent_inv_exact in Hrun as (Hne & -> & ->).
    rewrite held_app, held_retain.
    destruct (bool_decide_reflect (LastEventWritingToMemObj (this s) ≠ nullptr))
      as [Ho|Ho].
    + rewrite held_app, held_release, Htr. repeat case_decide; (done || lia).
    + rewrite Htr. apply dec_stable in Ho. rewrite decide_False by congruence. lia.
Qed.

(** X18.  No reference on an event is lost over the life of a buffer.  If
    the references the log shows are exactly one on the tracked writer and
    none on any other event (as after construction with an empty log), the
    same holds after every run of member-function calls that returns,
    whatever is mapped, unmapped or cleared in between; and when the
    destructor then runs, every event the object retained has been released
    again. *)
Theorem X18_event_references_balanced (E : collaborators) (ms : list method) :
  ∀ s s', writer_tracked s →
    run_calls E ms s = Some (tt, s') →
    writer_tracked s' ∧
    ∃ s'', destroy_ur_buffer_ s' = Some (tt, s'') ∧
           ∀ e, e ≠ nullptr → held e (log s'') = 0%Z.
Proof.
  induction ms as [|m ms IH]; intros s s' Htr Hrun.
  - simpl in Hrun. unfold_M. injection Hrun as <-. split; [done|].
    destruct s as [b l]. rewrite destroy_eq. eexists. split; [reflexivity|].
    intros e He. specialize (Htr e He). simpl in Htr |- *.
    rewrite held_app.
    assert (held e (if isSubBuffer b then l ++ [EvMemRelease (Parent b)] else l)
            = held e l) as ->.
    { destruct (isSubBuffer b); [|done]. rewrite held_app, held_mem_release. lia. }
    rewrite Htr.
    destruct (bool_decide_reflect (LastEventWritingToMemObj b ≠ nullptr)) as [Ho|Ho].
    + rewrite held_release. case_decide; lia.
    + apply dec_stable in Ho. rewrite decide_False by congruence. done.
  - apply run_calls_cons in Hrun as (s1 & Hstep & Hrest).
    apply (IH s1 s'); [by eapply invoke_writer_tracked | done].
Qed.

(** ** No call runs off the per-device vectors *)

(** X19.  Both constructors build the per-device vectors with one slot per
    device of the context, and no member function changes their length.  So
    on an object that went from a constructor through any run of calls that
    returned, recording a writer (for any non-null event) and [clear()]
    return as well: their loops over the devices stay inside the vectors. *)
Theorem X19_device_loops_stay_in_bounds (E : collaborators) (ms : list method)
    (Ctx : ur_context_handle_t_) (Parent0 : ptr) (Flags : Z) (Mode : AllocMode)
    (HostPtr0 : ptr) (Size0 : size_t) (l : list event) (s' : state) :
  run_calls E ms (new_ur_buffer_ Ctx Parent0 Flags Mode HostPtr0 Size0 l)
  = Some (tt, s') →
  buffer_wf (this s') ∧
  NumDevices (Context (base (this s'))) = NumDevices Ctx ∧
  (∀ getDeviceIndex NewEvent, NewEvent ≠ nullptr →
     is_Some (setLastEventWritingToMemObj getDeviceIndex NewEvent s')) ∧
  (∀ cuMemFree cuMemHostUnregister cuMemFreeHost CHK,
     is_Some (clear cuMemFree cuMemHostUnregister cuMemFreeHost CHK s')).
Proof.
  intros Hrun.
  apply run_calls_frame in Hrun as (Hb & _ & _ & _ & _ & _ & Hwf & _).
  assert (buffer_wf (this s')) as Hwf'.
  { apply Hwf. split; simpl; by rewrite length_replicate. }
  split; [done|]. split; [by rewrite Hb|]. destruct s' as [b' l']. simpl in *.
  split.
  - intros gdi e He.
    destruct (setLastEvent_eq gdi b' l' e He (proj2 Hwf')) as (v & -> & _).
    by eexists.
  - intros cuMemFree cuHU cuFH CHK.
    unfold clear. unfold_M. simpl.
    destruct (isSubBuffer b'); [by eexists|].
    destruct (clear_loop_eq cuMemFree CHK (NumDevices (Context (base b'))) 0
                UR_RESULT_SUCCESS {| this := b'; log := l' |})
      as (R & evs & Hloop & _); [simpl; destruct Hwf'; lia|].
    destruct (MemAllocMode b'); try (by eexists); rewrite Hloop; by eexists.
Qed.

Lemma X18_event_references_balanced_witness :
  writer_tracked Scenario.fresh_buffer ∧
  run_calls Scenario.world Scenario.calls Scenario.fresh_buffer
  = Some (tt, Scenario.after_calls) ∧
  writer_tracked Scenario.after_calls ∧
  ∃ s'', destroy_ur_buffer_ Scenario.after_calls = Some (tt, s'') ∧
         held 8 (log s'') = 0%Z.
Proof.
  assert (writer_tracked Scenario.fresh_buffer) as Htr.
  { intros e He. simpl. rewrite decide_False by done. reflexivity. }
  assert (run_calls Scenario.world Scenario.calls Scenario.fresh_buffer
          = Some (tt, Scenario.after_calls)) as Hrun by reflexivity.
  split; [exact Htr|]. split; [exact Hrun|].
  destruct (X18_event_references_balanced Scenario.world Scenario.calls
              Scenario.fresh_buffer Scenario.after_calls Htr Hrun)
    as (Htr' & s'' & Hd & Hbal).
  split; [exact Htr'|]. exists s''. split; [exact Hd|]. apply Hbal. discriminate.
Defined.

Lemma X19_device_loops_stay_in_bounds_witness :
  run_calls Scenario.world Scenario.calls Scenario.fresh_buffer
  = Some (tt, Scenario.after_calls) ∧
  buffer_wf (this Scenario.after_calls) ∧
  is_Some (setLastEventWritingToMemObj Sample.getDeviceIndex 7 Scenario.after_calls).
Proof.
  assert (run_calls Scenario.world Scenario.calls Scenario.fresh_buffer
          = Some (tt, Scenario.after_calls)) as Hrun by reflexivity.
  split; [exact Hrun|].
  destruct (X19_device_loops_stay_in_bounds Scenario.world Scenario.calls
              Sample.ctx2 nullptr 0 Classic nullptr 1024 [] Scenario.after_calls Hrun)
    as (Hwf & _ & Hset & _).
  split; [exact Hwf|]. apply Hset. discriminate.
Defined.
